(** * neon/transforms/cost.py: cost functions and evaluation metrics

    A shallow embedding of the cost and metric classes of
    [neon/transforms/cost.py] and the properties of their formulas.

    Numbers.  The backend computes in floating point; here tensor entries
    are real numbers ([R]) and every arithmetic operation is exact.  All
    statements below are statements about the formulas over the reals.

    Tensors.  A tensor is two-dimensional, stored as the list of its rows,
    as a nested list literal of the source reads: [[[0.7],[0.3]]] has two
    rows and one column.  Axis 0 runs over the rows (the output units or
    classes), axis 1 over the columns (the examples of the batch): the
    metrics reshape their per-example buffers to [(1, be.bsz)] and fill
    them with reductions along axis 0. *)

From Stdlib Require Import Reals Lra Lia List ZArith Bool.
Import ListNotations.
Open Scope R_scope.

(** ** Tensors *)

Abbreviation Row := (list R).
Abbreviation Tensor := (list (list R)).

Definition shape0 (a : Tensor) : nat := length a.

Definition shape1 (a : Tensor) : nat :=
  match a with
  | [] => 0%nat
  | r :: _ => length r
  end.

(** [a[i][j]] and the column [a[:, j]]. *)
Definition get (a : Tensor) (i j : nat) : R := nth j (nth i a []) 0.

Definition col (j : nat) (a : Tensor) : list R := map (fun r => nth j r 0) a.

(** An [m] by [n] tensor: [m] rows, each of [n] entries. *)
Definition has_shape (m n : nat) (a : Tensor) : Prop :=
  length a = m /\ Forall (fun r => length r = n) a.

(** Every entry of [a] satisfies [P]. *)
Definition entries (P : R -> Prop) (a : Tensor) : Prop := Forall (Forall P) a.

(** [a[i][j] = x] on a copy of [a]. *)
Fixpoint set_nth {A : Type} (i : nat) (x : A) (l : list A) : list A :=
  match l, i with
  | [], _ => []
  | _ :: l', O => x :: l'
  | y :: l', S i' => y :: set_nth i' x l'
  end.

Definition set (a : Tensor) (i j : nat) (x : R) : Tensor :=
  set_nth i (set_nth j x (nth i a [])) a.

Fixpoint zipWith {A B C : Type} (f : A -> B -> C) (l : list A) (l' : list B)
  : list C :=
  match l, l' with
  | x :: l, y :: l' => f x y :: zipWith f l l'
  | _, _ => []
  end.

Definition Rsum (l : list R) : R := fold_right Rplus 0 l.

(** A comparison of the backend yields the number 1 or 0. *)
Definition b2r (b : bool) : R := if b then 1 else 0.

Definition Rgtb (x y : R) : bool := if Rlt_dec y x then true else false.
Definition Rleb (x y : R) : bool := if Rle_dec x y then true else false.
Definition Reqb (x y : R) : bool := if Req_dec_T x y then true else false.

(** Number of entries of [l] that satisfy [p]. *)
Definition count (p : R -> bool) (l : list R) : nat := length (filter p l).

(** The one-hot column of [n] classes whose class [c] is the correct one. *)
Fixpoint onehot (c n : nat) : list R :=
  match n with
  | O => []
  | S n' =>
      match c with
      | O => 1 :: repeat 0 n'
      | S c' => 0 :: onehot c' n'
      end
  end.

(** *** Elementwise operators

    An operator between two tensors broadcasts a one-row tensor along
    axis 0, the only broadcast this module relies on
    ([y > self.correctProbs] compares every row of [y] with the single row
    of the buffer). *)

Definition ew1 (f : R -> R) (a : Tensor) : Tensor := map (map f) a.

Definition ew2 (f : R -> R -> R) (a b : Tensor) : Tensor :=
  match a, b with
  | [ra], _ => map (fun rb => zipWith f ra rb) b
  | _, [rb] => map (fun ra => zipWith f ra rb) a
  | _, _ => zipWith (zipWith f) a b
  end.

Definition t_neg (a : Tensor) : Tensor := ew1 Ropp a.             (* -a     *)
Definition t_add (a b : Tensor) : Tensor := ew2 Rplus a b.        (* a + b  *)
Definition t_sub (a b : Tensor) : Tensor := ew2 Rminus a b.       (* a - b  *)
Definition t_mul (a b : Tensor) : Tensor := ew2 Rmult a b.        (* a * b  *)
Definition t_div (a b : Tensor) : Tensor := ew2 Rdiv a b.         (* a / b  *)
Definition t_gt (a b : Tensor) : Tensor :=                        (* a > b  *)
  ew2 (fun x y => b2r (Rgtb x y)) a b.
Definition t_le (a b : Tensor) : Tensor :=                        (* a <= b *)
  ew2 (fun x y => b2r (Rleb x y)) a b.
Definition t_eq (a b : Tensor) : Tensor :=                        (* a == b *)
  ew2 (fun x y => b2r (Reqb x y)) a b.

Definition s_sub (c : R) (a : Tensor) : Tensor := ew1 (fun x => c - x) a.  (* c - a *)
Definition s_mul (c : R) (a : Tensor) : Tensor := ew1 (fun x => c * x) a.  (* c * a *)
Definition t_mul_s (a : Tensor) (c : R) : Tensor := ew1 (fun x => x * c) a. (* a * c *)
Definition t_div_s (a : Tensor) (c : R) : Tensor := ew1 (fun x => x / c) a. (* a / c *)
Definition t_gt_s (a : Tensor) (c : R) : Tensor :=                          (* a > c *)
  ew1 (fun x => b2r (Rgtb x c)) a.

(** ** The backend, [self.be] *)

(** Modelled from the spec: the tensor backend is not part of this module.
    Of the backend the model keeps the batch width [bsz] that sizes the
    buffers of [iobuf], and the floor at which the safe logarithm clamps its
    argument ("a logarithm variant that avoids negative-infinity/NaN outputs
    for zero or near-zero inputs via clamping"). *)
Class Backend := {
  bsz : nat;
  safelog_floor : R;
  safelog_floor_pos : 0 < safelog_floor
}.

(** A backend of batch width 1 whose safe logarithm clamps at [exp (-50)]. *)
Definition unit_batch_backend : Backend :=
  {| bsz := 1; safelog_floor := exp (-50); safelog_floor_pos := exp_pos (-50) |}.

(** Maximum of the non-empty list [x :: l]. *)
Fixpoint maximum (x : R) (l : list R) : R :=
  match l with
  | [] => x
  | y :: l' => Rmax x (maximum y l')
  end.

Definition col_max (c : list R) : R :=
  match c with
  | [] => 0
  | x :: l => maximum x l
  end.

(** Index of the first maximal entry: [best] at index [bi] is the maximum of
    the entries before index [i]. *)
Fixpoint argmax_from (best : R) (bi i : nat) (l : list R) : nat :=
  match l with
  | [] => bi
  | x :: l' =>
      if Rlt_dec best x then argmax_from x i (S i) l'
      else argmax_from best bi (S i) l'
  end.

Definition col_argmax (c : list R) : nat :=
  match c with
  | [] => 0%nat
  | x :: l => argmax_from x 0 1 l
  end.

Definition col_mean (c : list R) : R := Rsum c / INR (length c).

Module be.

(** Modelled from the spec: the backend's primitives, each with [axis=0]
    where the source passes it.  A reduction along axis 0 of an [(m, n)]
    tensor is the [(1, n)] tensor of the reduced columns. *)
Definition reduce0 (f : list R -> R) (a : Tensor) : Tensor :=
  [map (fun j => f (col j a)) (seq 0 (shape1 a))].

Definition sum (a : Tensor) : Tensor := reduce0 Rsum a.
Definition mean (a : Tensor) : Tensor := reduce0 col_mean a.
Definition max (a : Tensor) : Tensor := reduce0 col_max a.
Definition argmax (a : Tensor) : Tensor :=
  reduce0 (fun c => INR (col_argmax c)) a.

Definition square (a : Tensor) : Tensor := ew1 (fun x => x * x) a.
Definition equal (a b : Tensor) : Tensor := t_eq a b.
Definition not_equal (a b : Tensor) : Tensor :=
  ew2 (fun x y => b2r (negb (Reqb x y))) a b.

Definition safelog `{Backend} (a : Tensor) : Tensor :=
  ew1 (fun x => ln (Rmax x safelog_floor)) a.

(** [iobuf(d)]: a [(d, bsz)] buffer. *)
Definition iobuf `{Backend} (d : nat) : Tensor := repeat (repeat 0 bsz) d.

End be.

(** [a.get().mean(axis=1)] and [a.get().mean()] of the host copy of [a]. *)
Definition mean_axis1 (a : Tensor) : list R := map col_mean a.
Definition mean_all (a : Tensor) : R := col_mean (concat a).

(** ** Methods

    A method runs on the object [self], returns a value or raises, and
    leaves the object in a new state. *)

Inductive exn : Set := NotImplementedError.

Inductive outcome (A : Type) : Type :=
| Return (a : A)
| Raise (e : exn).
Arguments Return {A} a.
Arguments Raise {A} e.

Definition method (S A : Type) : Type := S -> outcome A * S.

Definition ret {S A : Type} (a : A) : method S A := fun s => (Return a, s).
Definition raise {S A : Type} (e : exn) : method S A := fun s => (Raise e, s).
Definition bind {S A B : Type} (m : method S A) (k : A -> method S B)
  : method S B :=
  fun s =>
    match m s with
    | (Return a, s') => k a s'
    | (Raise e, s') => (Raise e, s')
    end.
Definition read {S : Type} : method S S := fun s => (Return s, s).
Definition write {S : Type} (s' : S) : method S unit := fun _ => (Return tt, s').

Notation "x <- m ;; k" := (bind m (fun x => k))
  (at level 61, m at next level, right associativity).
Notation "m ;; k" := (bind m (fun _ => k))
  (at level 61, right associativity).

Definition result {S A : Type} (o : outcome A * S) : outcome A := fst o.
Definition state {S A : Type} (o : outcome A * S) : S := snd o.

(** ** class Cost *)

Module Cost.

(** The fields the base class reads: [self.func] and [self.funcgrad]. *)
Record self : Type := {
  func : Tensor -> Tensor -> Tensor;
  funcgrad : Tensor -> Tensor -> Tensor
}.

Definition __call__ (y t : Tensor) : method self Tensor :=
  s <- read ;; ret (func s y t).

Definition bprop (y t : Tensor) : method self Tensor :=
  s <- read ;; ret (funcgrad s y t).

End Cost.

(** ** class Metric(Cost) *)

Module Metric.

Definition __call__ {S A : Type} (y t : Tensor) : method S A :=
  raise NotImplementedError.

(** [pass]: returns [None]. *)
Definition bprop {S : Type} (y t : Tensor) : method S unit := ret tt.

End Metric.

(** ** class CrossEntropyBinary(Cost) *)

Module CrossEntropyBinary.

Record self : Type := { scale : R }.

(** [def __init__(self, scale=1)] *)
Definition default_scale : R := 1.
Definition __init__ (scale : R) : self := {| scale := scale |}.

Definition __call__ `{Backend} (y t : Tensor) : method self Tensor :=
  let a := t_mul (t_neg (be.safelog y)) t in
  let b := t_mul (t_neg (be.safelog (s_sub 1 y))) (s_sub 1 t) in
  ret (be.sum (t_add a b)).

Definition bprop (y t : Tensor) : method self Tensor :=
  s <- read ;; ret (s_mul (scale s) (t_sub y t)).

End CrossEntropyBinary.

(** ** class CrossEntropyMulti(Cost) *)

Module CrossEntropyMulti.

Record self : Type := { scale : R; logscale : R }.

(** [def __init__(self, scale=1, usebits=False)] *)
Definition __init__ (scale : R) (usebits : bool) : self :=
  {| scale := scale; logscale := if usebits then 1 / ln 2 else 1 |}.

Definition __call__ `{Backend} (y t : Tensor) : method self Tensor :=
  s <- read ;;
  ret (be.sum (t_mul (t_mul_s (t_neg t) (logscale s)) (be.safelog y))).

Definition bprop (y t : Tensor) : method self Tensor :=
  s <- read ;; ret (s_mul (scale s) (t_sub y t)).

End CrossEntropyMulti.

(** ** class SumSquared(Cost) *)

Module SumSquared.

Definition __init__ : Cost.self :=
  {| Cost.func := fun y t => t_div_s (be.sum (be.square (t_sub y t))) 2;
     Cost.funcgrad := fun y t => t_sub y t |}.

End SumSquared.

(** ** class MeanSquared(Cost) *)

Module MeanSquared.

Definition __init__ : Cost.self :=
  {| Cost.func := fun y t => t_div_s (be.mean (be.square (t_sub y t))) 2;
     Cost.funcgrad := fun y t => t_div_s (t_sub y t) (INR (shape0 y)) |}.

End MeanSquared.

(** ** class TopKMisclassification(Metric)

    [metric_names], the display names of the three values, plays no part
    in the values and is left out, here and in the two classes below. *)

Module TopKMisclassification.

(** [correctProbs], [top1] and [topk] are the three rows of the buffer
    [self.outputs], each viewed as a [(1, bsz)] tensor: writing one of
    them writes [outputs]. *)
Record self : Type := {
  correctProbs : Tensor;
  top1 : Tensor;
  topk : Tensor;
  k : Z
}.

Definition outputs (s : self) : Tensor := correctProbs s ++ top1 s ++ topk s.

Definition __init__ `{Backend} (k : Z) : self :=
  {| correctProbs := be.iobuf 1; top1 := be.iobuf 1; topk := be.iobuf 1;
     k := k |}.

(** [self.correctProbs[:] = v] and its siblings. *)
Definition set_correctProbs (v : Tensor) : method self unit :=
  s <- read ;;
  write {| correctProbs := v; top1 := top1 s; topk := topk s; k := k s |}.
Definition set_top1 (v : Tensor) : method self unit :=
  s <- read ;;
  write {| correctProbs := correctProbs s; top1 := v; topk := topk s; k := k s |}.
Definition set_topk (v : Tensor) : method self unit :=
  s <- read ;;
  write {| correctProbs := correctProbs s; top1 := top1 s; topk := v; k := k s |}.

(** The backend evaluates an expression when it is assigned to a buffer;
    [nSlots] and [nEq] are evaluated at lines 236 and 237, both before
    [correctProbs] is overwritten at line 238. *)
Definition __call__ `{Backend} (y t : Tensor) : method self (list R) :=
  set_correctProbs (be.sum (t_mul y t)) ;;
  s <- read ;;
  let nSlots := s_sub (IZR (k s)) (be.sum (t_gt y (correctProbs s))) in
  let nEq := be.sum (t_eq y (correctProbs s)) in
  set_topk
    (s_sub 1 (t_mul (t_gt_s nSlots 0)
                (t_add (t_mul (t_le nEq nSlots) (s_sub 1 (t_div nSlots nEq)))
                       (t_div nSlots nEq)))) ;;
  set_top1 (s_sub 1 (t_div (t_eq (be.max y) (correctProbs s)) nEq)) ;;
  set_correctProbs (t_neg (be.safelog (correctProbs s))) ;;
  s <- read ;;
  ret (mean_axis1 (outputs s)).

Definition bprop (y t : Tensor) : method self unit := Metric.bprop y t.

End TopKMisclassification.

(** ** class Misclassification(Metric) *)

Module Misclassification.

(** [self.outputs = self.preds]: one buffer under two names. *)
Record self : Type := {
  preds : Tensor;
  hyps : Tensor
}.

Definition outputs (s : self) : Tensor := preds s.

Definition __init__ `{Backend} : self :=
  {| preds := be.iobuf 1; hyps := be.iobuf 1 |}.

Definition set_preds (v : Tensor) : method self unit :=
  s <- read ;; write {| preds := v; hyps := hyps s |}.
Definition set_hyps (v : Tensor) : method self unit :=
  s <- read ;; write {| preds := preds s; hyps := v |}.
Definition set_outputs (v : Tensor) : method self unit := set_preds v.

Definition __call__ (y t : Tensor) : method self R :=
  set_preds (be.argmax y) ;;
  set_hyps (be.argmax t) ;;
  s <- read ;;
  set_outputs (be.not_equal (preds s) (hyps s)) ;;
  s <- read ;;
  ret (mean_all (outputs s)).

Definition bprop (y t : Tensor) : method self unit := Metric.bprop y t.

End Misclassification.

(** ** class Accuracy(Metric) *)

Module Accuracy.

Record self : Type := {
  preds : Tensor;
  hyps : Tensor
}.

Definition outputs (s : self) : Tensor := preds s.

Definition __init__ `{Backend} : self :=
  {| preds := be.iobuf 1; hyps := be.iobuf 1 |}.

Definition set_preds (v : Tensor) : method self unit :=
  s <- read ;; write {| preds := v; hyps := hyps s |}.
Definition set_hyps (v : Tensor) : method self unit :=
  s <- read ;; write {| preds := preds s; hyps := v |}.
Definition set_outputs (v : Tensor) : method self unit := set_preds v.

Definition __call__ (y t : Tensor) : method self R :=
  set_preds (be.argmax y) ;;
  set_hyps (be.argmax t) ;;
  s <- read ;;
  set_outputs (be.equal (preds s) (hyps s)) ;;
  s <- read ;;
  ret (mean_all (outputs s)).

Definition bprop (y t : Tensor) : method self unit := Metric.bprop y t.

End Accuracy.

(** ** The specification's wording of MeanSquared

    "[sum(square(y-t), axis=0)/2] ... divided additionally by batch size"
    and "[(y-t)/batch_size]", the batch size being the number of examples
    of the batch, that is the number of columns. *)

Definition batch_size (y : Tensor) : nat := shape1 y.

Definition MeanSquared_spec_loss (y t : Tensor) : Tensor :=
  t_div_s (t_div_s (be.sum (be.square (t_sub y t))) 2) (INR (batch_size y)).

Definition MeanSquared_spec_grad (y t : Tensor) : Tensor :=
  t_div_s (t_sub y t) (INR (batch_size y)).

(** ** Inputs of the worked examples *)

Definition y_example : Tensor := [[7/10]; [3/10]].
Definition t_example : Tensor := [[1]; [0]].

(** One output unit, two examples. *)
Definition y_two_examples : Tensor := [[1; 1]].
Definition t_two_examples : Tensor := [[0; 0]].

(** Three classes, one example; classes 0 and 1 tie at the top. *)
Definition y_tie : Tensor := [[2/5]; [2/5]; [1/5]].
Definition t_tie : Tensor := [[1]; [0]; [0]].

(** Targets that are probabilities rather than indicators. *)
Definition t_soft : Tensor := [[1]; [1/2]].

(** ** Vocabulary of the further properties *)

(** Every column of the target tensor [t] is one-hot. *)
Definition onehot_columns (m n : nat) (t : Tensor) : Prop :=
  forall j, (j < n)%nat -> exists c, (c < m)%nat /\ col j t = onehot c m.

(** Example [j] is decoded to the same class from [y] and from [t]. *)
Definition decoded_equal (y t : Tensor) (j : nat) : bool :=
  Nat.eqb (col_argmax (col j y)) (col_argmax (col j t)).

(** Number of examples of the batch decoded to the same class. *)
Definition hits (y t : Tensor) : nat :=
  length (filter (decoded_equal y t) (seq 0 (shape1 y))).

(** The binary cross entropy of one prediction [x] against one target [u],
    lines 109 and 110 on one entry. *)
Definition bce_term `{Backend} (x u : R) : R :=
  - ln (Rmax x safelog_floor) * u + - ln (Rmax (1 - x) safelog_floor) * (1 - u).

(** The value line 236 gives one example, from [k], the number [nGreater]
    of classes strictly more probable than the correct one and the number
    [nEq] of classes as probable as it. *)
Definition topk_of_counts (k : Z) (nGreater nEq : nat) : R :=
  let nSlots := IZR k - INR nGreater in
  1 - b2r (Rgtb nSlots 0)
      * (b2r (Rleb (INR nEq) nSlots) * (1 - nSlots / INR nEq)
         + nSlots / INR nEq).

(** * Properties *)

(** ** Lists and tensors *)

Lemma zipWith_length {A B C} (f : A -> B -> C) l l' :
  length l = length l' -> length (zipWith f l l') = length l.
Proof.
  revert l'; induction l as [|x l IH]; intros [|x' l'] E; simpl in *;
    try discriminate; auto.
Qed.

Lemma zipWith_nth {A B C} (f : A -> B -> C) l l' j da db dc :
  (j < length l)%nat -> (j < length l')%nat ->
  nth j (zipWith f l l') dc = f (nth j l da) (nth j l' db).
Proof.
  revert l' j; induction l as [|x l IH]; intros [|x' l'] [|j] H1 H2;
    simpl in *; try lia; auto.
  apply IH; lia.
Qed.

Lemma has_shape_shape1 m n a :
  has_shape m n a -> (0 < m)%nat -> shape1 a = n.
Proof.
  intros [E F] Hm; destruct a as [|r a]; simpl in *; [lia|].
  now inversion F.
Qed.

Lemma has_shape_row m n a i :
  has_shape m n a -> (i < m)%nat -> length (nth i a []) = n.
Proof.
  intros [E F] Hi; rewrite Forall_forall in F; apply F, nth_In; lia.
Qed.

Lemma col_length j a : length (col j a) = length a.
Proof. apply length_map. Qed.

Lemma col_nth j a i : nth i (col j a) 0 = get a i j.
Proof.
  unfold col, get; revert i; induction a as [|r a IH]; intros [|i]; simpl; auto;
    now destruct j.
Qed.

Lemma ew1_shape f m n a : has_shape m n a -> has_shape m n (ew1 f a).
Proof.
  intros [E F]; split; unfold ew1.
  - now rewrite length_map.
  - apply Forall_map; eapply Forall_impl; [|exact F].
    intros r Hr; simpl; now rewrite length_map.
Qed.

Lemma col_ew1 f j m n a :
  has_shape m n a -> (j < n)%nat -> col j (ew1 f a) = map f (col j a).
Proof.
  intros [_ F] Hj; unfold col, ew1; rewrite !map_map.
  apply map_ext_in; intros r Hr; rewrite Forall_forall in F.
  rewrite (nth_indep _ 0 (f 0)) by (rewrite length_map, (F r Hr); exact Hj).
  apply map_nth.
Qed.

(** Two tensors of one shape combine entry by entry. *)
Lemma ew2_same f m n a b :
  has_shape m n a -> has_shape m n b -> ew2 f a b = zipWith (zipWith f) a b.
Proof.
  intros [Ea _] [Eb _]; unfold ew2.
  destruct a as [|ra [|ra' a]]; destruct b as [|rb [|rb' b]]; simpl in *;
    try reflexivity; lia.
Qed.

(** A one-row tensor is combined with every row of the other. *)
Lemma ew2_bcast f a rb :
  ew2 f a [rb] = map (fun ra => zipWith f ra rb) a.
Proof. unfold ew2; destruct a as [|ra [|ra' a]]; reflexivity. Qed.

Lemma zipWith_rows_shape f m n a b :
  has_shape m n a -> has_shape m n b ->
  has_shape m n (zipWith (zipWith f) a b).
Proof.
  revert m b; induction a as [|ra a IH]; intros m [|rb b] [Ea Fa] [Eb Fb];
    simpl in *; subst; try discriminate; [split; auto|].
  inversion Fa; inversion Fb; subst.
  destruct (IH (length a) b) as [E F]; [split; auto | split; auto; lia|].
  split; simpl; [now rewrite E|].
  constructor; auto. apply zipWith_length; congruence.
Qed.

Lemma ew2_shape f m n a b :
  has_shape m n a -> has_shape m n b -> has_shape m n (ew2 f a b).
Proof.
  intros Ha Hb; rewrite (ew2_same f m n) by assumption.
  now apply zipWith_rows_shape.
Qed.

Lemma col_zipWith_rows f j m n a b :
  has_shape m n a -> has_shape m n b -> (j < n)%nat ->
  col j (zipWith (zipWith f) a b) = zipWith f (col j a) (col j b).
Proof.
  revert m b; induction a as [|ra a IH]; intros m [|rb b] [Ea Fa] [Eb Fb] Hj;
    simpl in *; subst; try discriminate; auto.
  inversion Fa; inversion Fb; subst.
  f_equal.
  - apply zipWith_nth; congruence.
  - apply (IH (length a)); [split; auto | split; auto; lia | assumption].
Qed.

Lemma col_ew2 f j m n a b :
  has_shape m n a -> has_shape m n b -> (j < n)%nat ->
  col j (ew2 f a b) = zipWith f (col j a) (col j b).
Proof.
  intros Ha Hb Hj; rewrite (ew2_same f m n) by assumption.
  now apply (col_zipWith_rows f j m n).
Qed.

Lemma col_ew2_bcast f j m n a rb :
  has_shape m n a -> length rb = n -> (j < n)%nat ->
  col j (ew2 f a [rb]) = map (fun x => f x (nth j rb 0)) (col j a).
Proof.
  intros [_ F] Hb Hj; rewrite ew2_bcast; unfold col; rewrite !map_map.
  apply map_ext_in; intros r Hr; rewrite Forall_forall in F.
  apply zipWith_nth; [rewrite (F r Hr) | rewrite Hb]; exact Hj.
Qed.

(** Entry [j] of a reduction along axis 0 is the reduced column [j]. *)
Lemma reduce0_get f a j :
  (j < shape1 a)%nat -> get (be.reduce0 f a) 0 j = f (col j a).
Proof.
  intros Hj; unfold get, be.reduce0; simpl.
  rewrite (nth_indep _ 0 (f (col 0 a))) by (now rewrite length_map, length_seq).
  rewrite (map_nth (fun j => f (col j a)) (seq 0 (shape1 a)) 0%nat j).
  now rewrite seq_nth.
Qed.

(** ** Metric: the abstract base *)

(** C8.  Whatever the object and the inputs, [Metric.__call__] raises
    [NotImplementedError] and [Metric.bprop] returns no value; neither
    changes the object. *)
Theorem Metric_base_methods (S A : Type) (self : S) (y t : Tensor) :
  @Metric.__call__ S A y t self = (Raise NotImplementedError, self) /\
  @Metric.bprop S y t self = (Return tt, self).
Proof. split; reflexivity. Qed.

(** ** The cost objects are read only *)

(** C9.  [__call__] and [bprop] of CrossEntropyBinary, CrossEntropyMulti and
    of the objects SumSquared and MeanSquared build (and of any object with
    the fields [func] and [funcgrad]) leave the object as it was, so a second
    call, or a call after a [bprop], returns what the first call returned. *)
Theorem cost_methods_frame `{Backend} (y t : Tensor) :
  (forall self : CrossEntropyBinary.self,
      state (CrossEntropyBinary.__call__ y t self) = self /\
      state (CrossEntropyBinary.bprop y t self) = self /\
      result (CrossEntropyBinary.__call__ y t
                (state (CrossEntropyBinary.__call__ y t self)))
      = result (CrossEntropyBinary.__call__ y t self) /\
      result (CrossEntropyBinary.bprop y t
                (state (CrossEntropyBinary.__call__ y t self)))
      = result (CrossEntropyBinary.bprop y t self)) /\
  (forall self : CrossEntropyMulti.self,
      state (CrossEntropyMulti.__call__ y t self) = self /\
      state (CrossEntropyMulti.bprop y t self) = self /\
      result (CrossEntropyMulti.__call__ y t
                (state (CrossEntropyMulti.__call__ y t self)))
      = result (CrossEntropyMulti.__call__ y t self) /\
      result (CrossEntropyMulti.bprop y t
                (state (CrossEntropyMulti.__call__ y t self)))
      = result (CrossEntropyMulti.bprop y t self)) /\
  (forall self : Cost.self,
      state (Cost.__call__ y t self) = self /\
      state (Cost.bprop y t self) = self /\
      result (Cost.__call__ y t (state (Cost.__call__ y t self)))
      = result (Cost.__call__ y t self) /\
      result (Cost.bprop y t (state (Cost.__call__ y t self)))
      = result (Cost.bprop y t self)) /\
  state (Cost.__call__ y t SumSquared.__init__) = SumSquared.__init__ /\
  state (Cost.bprop y t SumSquared.__init__) = SumSquared.__init__ /\
  state (Cost.__call__ y t MeanSquared.__init__) = MeanSquared.__init__ /\
  state (Cost.bprop y t MeanSquared.__init__) = MeanSquared.__init__.
Proof. repeat split. Qed.

(** ** CrossEntropyBinary on the worked example *)

Lemma exp_m50_small : exp (-50) <= 7 / 10.
Proof.
  assert (E : 1 + 50 < exp 50) by (apply exp_ineq1; lra).
  assert (P : exp (-50) * exp 50 = 1) by (rewrite <- exp_plus; replace (-50 + 50) with 0 by lra; apply exp_0).
  pose proof (exp_pos (-50)) as Q.
  nra.
Qed.

Lemma ln_7_10_neg : ln (7 / 10) < 0.
Proof. rewrite <- ln_1; apply ln_increasing; lra. Qed.

Lemma example_loss_value `{Backend} :
  safelog_floor <= 7 / 10 ->
  CrossEntropyBinary.__call__ y_example t_example
    (CrossEntropyBinary.__init__ CrossEntropyBinary.default_scale)
  = (Return [[- 2 * ln (7 / 10)]],
     CrossEntropyBinary.__init__ CrossEntropyBinary.default_scale).
Proof.
  intros Hf.
  unfold CrossEntropyBinary.__call__, ret, y_example, t_example.
  f_equal. f_equal.
  unfold be.sum, be.reduce0, t_add, t_mul, t_neg, s_sub, be.safelog, ew2, ew1;
    simpl.
  replace (1 - 3 / 10) with (7 / 10) by lra.
  rewrite (Rmax_left (7 / 10) safelog_floor) by exact Hf.
  do 2 f_equal. lra.
Qed.

(** C1, as the code has it.  On [y = [[0.7],[0.3]]], [t = [[1],[0]]] and
    with the default scale, provided the safe logarithm does not clamp at
    0.7, the loss is the one-entry tensor [-2 ln 0.7] (each of the two rows
    contributes [-ln 0.7]) and the gradient is the tensor [[-0.3],[0.3]],
    whose first entry is [0.7 - 1]; the object is unchanged. *)
Theorem CrossEntropyBinary_example `{Backend} :
  safelog_floor <= 7 / 10 ->
  let self := CrossEntropyBinary.__init__ CrossEntropyBinary.default_scale in
  CrossEntropyBinary.__call__ y_example t_example self
  = (Return [[- 2 * ln (7 / 10)]], self) /\
  CrossEntropyBinary.bprop y_example t_example self
  = (Return [[7 / 10 - 1]; [3 / 10]], self).
Proof.
  intros Hf self; split.
  - now apply example_loss_value.
  - unfold CrossEntropyBinary.bprop, bind, read, ret, self; simpl.
    unfold CrossEntropyBinary.default_scale, s_mul, t_sub, ew2, ew1; simpl.
    replace (1 * (7 / 10 - 1)) with (7 / 10 - 1) by lra.
    replace (1 * (3 / 10 - 0)) with (3 / 10) by lra.
    reflexivity.
Qed.

Lemma CrossEntropyBinary_example_witness :
  @safelog_floor unit_batch_backend <= 7 / 10 /\
  CrossEntropyBinary.__call__ (H := unit_batch_backend) y_example t_example
    (CrossEntropyBinary.__init__ CrossEntropyBinary.default_scale)
  = (Return [[- 2 * ln (7 / 10)]],
     CrossEntropyBinary.__init__ CrossEntropyBinary.default_scale).
Proof.
  split; [exact exp_m50_small|].
  exact (proj1 (@CrossEntropyBinary_example unit_batch_backend exp_m50_small)).
Defined.

(** C1, as stated, fails: the loss on the worked example is not
    [-ln 0.7]. *)
Lemma CrossEntropyBinary_example_loss_is_not_ln :
  result (CrossEntropyBinary.__call__ (H := unit_batch_backend)
            y_example t_example
            (CrossEntropyBinary.__init__ CrossEntropyBinary.default_scale))
  <> Return [[- ln (7 / 10)]].
Proof.
  rewrite (@example_loss_value unit_batch_backend exp_m50_small); simpl.
  intros E; injection E as E.
  pose proof ln_7_10_neg; lra.
Qed.

(** ** MeanSquared *)

Lemma mean_is_sum_over_rows (a : Tensor) :
  be.mean a = t_div_s (be.sum a) (INR (shape0 a)).
Proof.
  unfold be.mean, be.sum, be.reduce0, t_div_s, ew1; simpl.
  rewrite map_map; f_equal; apply map_ext; intros j.
  unfold col_mean, shape0; now rewrite col_length.
Qed.

Lemma ew1_shape0 f a : shape0 (ew1 f a) = shape0 a.
Proof. apply length_map. Qed.

Lemma ew2_shape0 f m n a b :
  has_shape m n a -> has_shape m n b -> shape0 (ew2 f a b) = shape0 a.
Proof.
  intros Ha Hb; destruct (ew2_shape f m n a b Ha Hb) as [E _].
  destruct Ha as [Ea _]; unfold shape0; congruence.
Qed.

(** C2, as the code has it.  For [y] and [t] of one shape, MeanSquared's loss
    is [sum(square(y-t), axis=0)/2] divided by [y.shape[0]], the number of
    rows (output units) and not the number of examples, and its gradient is
    [(y-t)/y.shape[0]]; the object is unchanged. *)
Theorem MeanSquared_formulas (m n : nat) (y t : Tensor) :
  has_shape m n y -> has_shape m n t ->
  Cost.__call__ y t MeanSquared.__init__
  = (Return (t_div_s (t_div_s (be.sum (be.square (t_sub y t))) 2)
               (INR (shape0 y))),
     MeanSquared.__init__) /\
  Cost.bprop y t MeanSquared.__init__
  = (Return (t_div_s (t_sub y t) (INR (shape0 y))), MeanSquared.__init__).
Proof.
  intros Hy Ht; split; [|reflexivity].
  unfold Cost.__call__, bind, read, ret, MeanSquared.__init__ at 1.
  cbn [Cost.func].
  rewrite mean_is_sum_over_rows.
  unfold be.square at 2; rewrite ew1_shape0.
  unfold t_sub at 2; rewrite (ew2_shape0 Rminus m n y t Hy Ht).
  do 2 f_equal.
  unfold t_div_s, ew1; rewrite !map_map; apply map_ext; intros r.
  rewrite !map_map; apply map_ext; intros x.
  unfold Rdiv; ring.
Qed.

Lemma MeanSquared_formulas_witness :
  has_shape 1 2 y_two_examples /\ has_shape 1 2 t_two_examples /\
  Cost.bprop y_two_examples t_two_examples MeanSquared.__init__
  = (Return (t_div_s (t_sub y_two_examples t_two_examples)
               (INR (shape0 y_two_examples))), MeanSquared.__init__).
Proof.
  assert (Hy : has_shape 1 2 y_two_examples)
    by (split; [reflexivity | repeat constructor]).
  assert (Ht : has_shape 1 2 t_two_examples)
    by (split; [reflexivity | repeat constructor]).
  split; [exact Hy | split; [exact Ht|]].
  exact (proj2 (MeanSquared_formulas 1 2 y_two_examples t_two_examples Hy Ht)).
Defined.

(** C2, as stated, fails: on a batch of two examples with one output unit,
    [y = [[1, 1]]] and [t = [[0, 0]]], the code returns the loss
    [[0.5, 0.5]] and the gradient [[1, 1]]; dividing by the batch size
    would give [[0.25, 0.25]] and [[0.5, 0.5]]. *)
Lemma MeanSquared_does_not_divide_by_batch_size :
  result (Cost.__call__ y_two_examples t_two_examples MeanSquared.__init__)
  = Return [[1 / 2; 1 / 2]] /\
  MeanSquared_spec_loss y_two_examples t_two_examples = [[1 / 4; 1 / 4]] /\
  result (Cost.__call__ y_two_examples t_two_examples MeanSquared.__init__)
  <> Return (MeanSquared_spec_loss y_two_examples t_two_examples) /\
  result (Cost.bprop y_two_examples t_two_examples MeanSquared.__init__)
  <> Return (MeanSquared_spec_grad y_two_examples t_two_examples).
Proof.
  assert (L : result (Cost.__call__ y_two_examples t_two_examples
                        MeanSquared.__init__) = Return [[1 / 2; 1 / 2]]).
  { unfold result, Cost.__call__, bind, read, ret, MeanSquared.__init__,
      y_two_examples, t_two_examples; simpl.
    unfold be.mean, be.reduce0, be.square, t_sub, t_div_s, ew1, ew2, col_mean;
      simpl.
    replace (((1 - 0) * (1 - 0) + 0) / 1 / 2) with (1 / 2) by lra.
    reflexivity. }
  assert (P : MeanSquared_spec_loss y_two_examples t_two_examples
              = [[1 / 4; 1 / 4]]).
  { unfold MeanSquared_spec_loss, batch_size, y_two_examples, t_two_examples.
    unfold be.sum, be.reduce0, be.square, t_sub, t_div_s, ew1, ew2; simpl.
    replace (((1 - 0) * (1 - 0) + 0) / 2 / (1 + 1)) with (1 / 4) by lra.
    reflexivity. }
  repeat split; auto.
  - rewrite L, P; intros E; injection E as E _; lra.
  - unfold result, Cost.bprop, bind, read, ret, MeanSquared.__init__,
      MeanSquared_spec_grad, batch_size, y_two_examples, t_two_examples; simpl.
    unfold t_sub, t_div_s, ew1, ew2; simpl.
    intros E; injection E as E _; lra.
Qed.

(** ** Accuracy and Misclassification *)

Lemma Rsum_complement (f : R -> R -> bool) (l l' : list R) :
  Rsum (zipWith (fun x y => b2r (f x y)) l l')
  + Rsum (zipWith (fun x y => b2r (negb (f x y))) l l')
  = INR (length (zipWith (fun x y => b2r (f x y)) l l')).
Proof.
  revert l'; induction l as [|x l IH]; intros [|x' l']; try (simpl; lra).
  cbn [zipWith Rsum fold_right length]; rewrite S_INR.
  specialize (IH l'); unfold Rsum in IH.
  destruct (f x x'); simpl; lra.
Qed.

Lemma zipWith_length_indep {A B C D} (f : A -> B -> C) (g : A -> B -> D) l l' :
  length (zipWith f l l') = length (zipWith g l l').
Proof.
  revert l'; induction l as [|x l IH]; intros [|x' l']; simpl; auto.
Qed.

(** C3.  For [y] and [t] of one shape with at least one class and one
    example (one-hot encoded or not), the value Accuracy returns and the
    value Misclassification returns add up to 1, whatever the buffers of the
    two objects held before. *)
Theorem accuracy_plus_misclassification (m n : nat) (y t : Tensor)
    (sa : Accuracy.self) (sm : Misclassification.self) :
  has_shape m n y -> has_shape m n t -> (0 < m)%nat -> (0 < n)%nat ->
  exists a e : R,
    result (Accuracy.__call__ y t sa) = Return a /\
    result (Misclassification.__call__ y t sm) = Return e /\
    a + e = 1.
Proof.
  intros Hy Ht Hm Hn.
  eexists; eexists; split; [reflexivity | split; [reflexivity|]].
  unfold Accuracy.outputs, Misclassification.outputs; simpl.
  unfold mean_all, col_mean, be.equal, be.not_equal, t_eq, be.argmax,
    be.reduce0, ew2; simpl.
  rewrite !app_nil_r.
  rewrite (has_shape_shape1 m n y Hy Hm), (has_shape_shape1 m n t Ht Hm).
  set (p := map _ (seq 0 n)); set (h := map _ (seq 0 n)).
  rewrite (zipWith_length_indep (fun x y => b2r (negb (Reqb x y)))
             (fun x y => b2r (Reqb x y)) p h).
  assert (L : length (zipWith (fun x y => b2r (Reqb x y)) p h) = n).
  { rewrite zipWith_length; unfold p, h; rewrite !length_map, !length_seq; auto. }
  pose proof (Rsum_complement Reqb p h) as E; rewrite L in E |- *.
  assert (0 < INR n) by (apply lt_0_INR; lia).
  field_simplify_eq; [lra | lra].
Qed.

(** ** Entries of elementwise results *)

Lemma get_ew1 f m n a i j :
  has_shape m n a -> (i < m)%nat -> (j < n)%nat ->
  get (ew1 f a) i j = f (get a i j).
Proof.
  intros Ha Hi Hj; unfold get, ew1.
  change (@nil R) with (map f []) at 1; rewrite map_nth.
  rewrite (nth_indep _ 0 (f 0))
    by (rewrite length_map, (has_shape_row m n a i Ha Hi); exact Hj).
  apply map_nth.
Qed.

Lemma get_ew2 f m n a b i j :
  has_shape m n a -> has_shape m n b -> (i < m)%nat -> (j < n)%nat ->
  get (ew2 f a b) i j = f (get a i j) (get b i j).
Proof.
  intros Ha Hb Hi Hj; rewrite (ew2_same f m n) by assumption; unfold get.
  rewrite (zipWith_nth (zipWith f) a b i [] [] [])
    by (destruct Ha, Hb; lia).
  apply zipWith_nth.
  - now rewrite (has_shape_row m n a i Ha Hi).
  - now rewrite (has_shape_row m n b i Hb Hi).
Qed.

Lemma reduce0_shape f m n a :
  has_shape m n a -> (0 < m)%nat -> has_shape 1 n (be.reduce0 f a).
Proof.
  intros Ha Hm; split; [reflexivity|].
  constructor; [|constructor].
  now rewrite length_map, length_seq, (has_shape_shape1 m n a Ha Hm).
Qed.

Lemma reduce0_get_shape f m n a j :
  has_shape m n a -> (0 < m)%nat -> (j < n)%nat ->
  get (be.reduce0 f a) 0 j = f (col j a).
Proof.
  intros Ha Hm Hj; apply reduce0_get.
  now rewrite (has_shape_shape1 m n a Ha Hm).
Qed.

(** A column of [a] compared with the one-row tensor [b]. *)
Lemma col_ew2_row f j m n a b :
  has_shape m n a -> has_shape 1 n b -> (j < n)%nat ->
  col j (ew2 f a b) = map (fun x => f x (get b 0 j)) (col j a).
Proof.
  intros Ha [Eb Fb] Hj.
  destruct b as [|rb [|? ?]]; simpl in Eb; try discriminate.
  inversion Fb; subst.
  now apply (col_ew2_bcast f j m (length rb)).
Qed.

Lemma one_row_ext n a b :
  has_shape 1 n a -> has_shape 1 n b ->
  (forall j, (j < n)%nat -> get a 0 j = get b 0 j) -> a = b.
Proof.
  intros [Ea Fa] [Eb Fb] E.
  destruct a as [|ra [|? ?]], b as [|rb [|? ?]]; simpl in *; try discriminate.
  inversion Fa; inversion Fb; subst.
  f_equal; apply (nth_ext _ _ 0 0); [congruence|].
  intros j Hj; apply (E j Hj).
Qed.

Lemma ew2_row_shape f m n a b :
  has_shape m n a -> has_shape 1 n b -> has_shape m n (ew2 f a b).
Proof.
  intros [Ea Fa] [Eb Fb].
  destruct b as [|rb [|? ?]]; simpl in Eb; try discriminate.
  inversion Fb; subst; rewrite ew2_bcast; split.
  - now rewrite length_map.
  - apply Forall_map; eapply Forall_impl; [|exact Fa].
    intros r Hr; simpl in *; now rewrite zipWith_length.
Qed.

Create HintDb shape.
#[local] Hint Resolve ew1_shape ew2_shape ew2_row_shape reduce0_shape : shape.

(** The shape of a tensor expression, read off its operators. *)
Ltac shape :=
  unfold t_neg, t_add, t_sub, t_mul, t_div, t_gt, t_le, t_eq, s_sub, s_mul,
    t_mul_s, t_div_s, t_gt_s, be.sum, be.mean, be.max, be.argmax, be.square,
    be.equal, be.not_equal;
  eauto 12 with shape.

(** ** TopKMisclassification, column by column *)

(** The three per-example quantities of line 233 to 237 on the column
    [yc] of predictions and the column [tc] of targets. *)
Lemma TopK_state `{Backend} (y t : Tensor) (s : TopKMisclassification.self) :
  let cp := be.sum (t_mul y t) in
  let nSlots :=
    s_sub (IZR (TopKMisclassification.k s)) (be.sum (t_gt y cp)) in
  let nEq := be.sum (t_eq y cp) in
  state (TopKMisclassification.__call__ y t s)
  = {| TopKMisclassification.correctProbs := t_neg (be.safelog cp);
       TopKMisclassification.top1 :=
         s_sub 1 (t_div (t_eq (be.max y) cp) nEq);
       TopKMisclassification.topk :=
         s_sub 1 (t_mul (t_gt_s nSlots 0)
                    (t_add (t_mul (t_le nEq nSlots)
                              (s_sub 1 (t_div nSlots nEq)))
                       (t_div nSlots nEq)));
       TopKMisclassification.k := TopKMisclassification.k s |}.
Proof. reflexivity. Qed.

Section Column.

Context `{Backend}.
Variables (m n : nat) (y t : Tensor) (j : nat).
Hypothesis Hy : has_shape m n y.
Hypothesis Ht : has_shape m n t.
Hypothesis Hm : (0 < m)%nat.
Hypothesis Hj : (j < n)%nat.

Let yc := col j y.
Let tc := col j t.
Let cp := Rsum (zipWith Rmult yc tc).
Let nEq := Rsum (map (fun x => b2r (Reqb x cp)) yc).

Lemma correctProbs_get : get (be.sum (t_mul y t)) 0 j = cp.
Proof.
  unfold be.sum; rewrite (reduce0_get_shape _ m n) by shape.
  unfold t_mul; now rewrite (col_ew2 _ j m n).
Qed.

Lemma nEq_get : get (be.sum (t_eq y (be.sum (t_mul y t)))) 0 j = nEq.
Proof.
  unfold be.sum at 1; rewrite (reduce0_get_shape _ m n) by shape.
  unfold t_eq; rewrite (col_ew2_row _ j m n) by shape.
  now rewrite correctProbs_get.
Qed.

Lemma nGreater_get :
  get (be.sum (t_gt y (be.sum (t_mul y t)))) 0 j
  = Rsum (map (fun x => b2r (Rgtb x cp)) yc).
Proof.
  unfold be.sum at 1; rewrite (reduce0_get_shape _ m n) by shape.
  unfold t_gt; rewrite (col_ew2_row _ j m n) by shape.
  now rewrite correctProbs_get.
Qed.

Lemma top1_get (s : TopKMisclassification.self) :
  get (TopKMisclassification.top1
         (state (TopKMisclassification.__call__ y t s))) 0 j
  = 1 - b2r (Reqb (col_max yc) cp) / nEq.
Proof.
  rewrite TopK_state; cbn [TopKMisclassification.top1].
  set (NE := be.sum (t_eq y (be.sum (t_mul y t)))).
  set (CP := be.sum (t_mul y t)).
  assert (SE : has_shape 1 n NE) by (unfold NE; shape).
  assert (SC : has_shape 1 n CP) by (unfold CP; shape).
  assert (SM : has_shape 1 n (be.max y)) by shape.
  unfold s_sub, t_div, t_eq.
  rewrite (get_ew1 _ 1 n), (get_ew2 _ 1 n), (get_ew2 _ 1 n);
    auto with shape.
  unfold NE, CP; rewrite nEq_get, correctProbs_get.
  unfold be.max; now rewrite (reduce0_get_shape _ m n).
Qed.

Lemma topk_get (s : TopKMisclassification.self) :
  let nSlots := IZR (TopKMisclassification.k s)
                - Rsum (map (fun x => b2r (Rgtb x cp)) yc) in
  get (TopKMisclassification.topk
         (state (TopKMisclassification.__call__ y t s))) 0 j
  = 1 - b2r (Rgtb nSlots 0)
        * (b2r (Rleb nEq nSlots) * (1 - nSlots / nEq) + nSlots / nEq).
Proof.
  intros nSlots.
  rewrite TopK_state; cbn [TopKMisclassification.topk].
  set (NE := be.sum (t_eq y (be.sum (t_mul y t)))).
  set (NS := s_sub _ (be.sum (t_gt y (be.sum (t_mul y t))))).
  assert (SE : has_shape 1 n NE) by (unfold NE; shape).
  assert (SS : has_shape 1 n NS) by (unfold NS; shape).
  assert (GE : get NE 0 j = nEq) by apply nEq_get.
  assert (GS : get NS 0 j = nSlots).
  { unfold NS, s_sub; rewrite (get_ew1 _ 1 n); [| shape | lia | auto].
    now rewrite nGreater_get. }
  unfold s_sub, t_mul, t_add, t_gt_s, t_le, t_div.
  rewrite (get_ew1 _ 1 n), (get_ew2 _ 1 n), (get_ew1 _ 1 n),
    (get_ew2 _ 1 n), (get_ew2 _ 1 n), (get_ew2 _ 1 n), (get_ew2 _ 1 n);
    auto 8 with shape.
  rewrite (get_ew1 _ 1 n), (get_ew2 _ 1 n); auto with shape.
  now rewrite GE, GS.
Qed.

End Column.

(** ** Facts on one column *)

Lemma Rsum_cons (x : R) (l : list R) : Rsum (x :: l) = x + Rsum l.
Proof. reflexivity. Qed.

Lemma Rsum_zero_targets (l : list R) (k : nat) :
  Rsum (zipWith Rmult l (repeat 0 k)) = 0.
Proof.
  revert k; induction l as [|x l IH]; intros [|k];
    cbn [zipWith repeat]; try reflexivity.
  rewrite Rsum_cons, IH; lra.
Qed.

(** The probability of the correct class: [sum(y * t)] on a one-hot
    target. *)
Lemma Rsum_onehot (yc : list R) (c : nat) :
  (c < length yc)%nat ->
  Rsum (zipWith Rmult yc (onehot c (length yc))) = nth c yc 0.
Proof.
  revert c; induction yc as [|x l IH]; intros [|c] Hc;
    cbn [length onehot zipWith nth] in *; try lia.
  - rewrite Rsum_cons, Rsum_zero_targets; lra.
  - rewrite Rsum_cons, IH by lia; lra.
Qed.

Lemma Rsum_count (p : R -> bool) (l : list R) :
  Rsum (map (fun x => b2r (p x)) l) = INR (count p l).
Proof.
  unfold count; induction l as [|x l IH]; [reflexivity|].
  cbn [map Rsum fold_right filter]; unfold Rsum in IH; rewrite IH.
  destruct (p x); cbn [b2r length]; [rewrite S_INR|]; lra.
Qed.

Lemma Reqb_refl x : Reqb x x = true.
Proof. unfold Reqb; destruct (Req_dec_T x x); congruence. Qed.

Lemma Rgtb_true x y : Rgtb x y = true <-> y < x.
Proof. unfold Rgtb; destruct (Rlt_dec y x); split; congruence. Qed.

Lemma count_pos (p : R -> bool) (l : list R) (i : nat) :
  (i < length l)%nat -> p (nth i l 0) = true -> (1 <= count p l)%nat.
Proof.
  unfold count; revert i; induction l as [|x l IH]; intros [|i] Hi Hp;
    simpl in *; try lia.
  - rewrite Hp; simpl; lia.
  - specialize (IH i ltac:(lia) Hp); destruct (p x); simpl; lia.
Qed.

(** The value of line 236 from the two counts. *)
Lemma topk_formula_cases (kz : Z) (nGt nEq : nat) :
  (1 <= nEq)%nat ->
  let nSlots := (kz - Z.of_nat nGt)%Z in
  let ns := IZR kz - INR nGt in
  let ne := INR nEq in
  let v := 1 - b2r (Rgtb ns 0) * (b2r (Rleb ne ns) * (1 - ns / ne) + ns / ne) in
  ((nSlots <= 0)%Z -> v = 1) /\
  ((0 < nSlots)%Z -> (Z.of_nat nEq <= nSlots)%Z -> v = 0) /\
  ((0 < nSlots < Z.of_nat nEq)%Z -> v = 1 - IZR nSlots / INR nEq) /\
  0 <= v <= 1.
Proof.
  intros He nSlots ns ne v.
  assert (Ens : ns = IZR nSlots)
    by (unfold ns, nSlots; now rewrite minus_IZR, <- INR_IZR_INZ).
  assert (Ene : ne = IZR (Z.of_nat nEq)) by (unfold ne; apply INR_IZR_INZ).
  assert (Pne : 1 <= ne)
    by (rewrite Ene; apply IZR_le; lia).
  assert (C1 : (nSlots <= 0)%Z -> v = 1).
  { intros L; apply IZR_le in L; unfold v, Rgtb.
    destruct (Rlt_dec 0 ns); [lra | simpl; lra]. }
  assert (C2 : (0 < nSlots)%Z -> (Z.of_nat nEq <= nSlots)%Z -> v = 0).
  { intros L1 L2; apply IZR_lt in L1; apply IZR_le in L2; unfold v, Rgtb, Rleb.
    destruct (Rlt_dec 0 ns); [|lra].
    destruct (Rle_dec ne ns); [simpl; lra | lra]. }
  assert (C3 : (0 < nSlots < Z.of_nat nEq)%Z -> v = 1 - IZR nSlots / INR nEq).
  { intros [L1 L2]; apply IZR_lt in L1; apply IZR_lt in L2; unfold v, Rgtb, Rleb.
    destruct (Rlt_dec 0 ns); [|lra].
    destruct (Rle_dec ne ns); [lra|].
    simpl; fold ne; rewrite <- Ens; lra. }
  repeat split; auto.
  - destruct (Z_le_gt_dec nSlots 0) as [L|L]; [rewrite C1; auto; lra|].
    destruct (Z_le_gt_dec (Z.of_nat nEq) nSlots) as [L'|L'];
      [rewrite C2; auto; try lra; lia|].
    rewrite C3 by lia; fold ne; rewrite <- Ens.
    assert (ns < ne) by (rewrite Ens, Ene; apply IZR_lt; lia).
    assert (0 < / ne) by (apply Rinv_0_lt_compat; lra).
    assert (ne * / ne = 1) by (apply Rinv_r; lra).
    unfold Rdiv; nra.
  - destruct (Z_le_gt_dec nSlots 0) as [L|L]; [rewrite C1; auto; lra|].
    destruct (Z_le_gt_dec (Z.of_nat nEq) nSlots) as [L'|L'];
      [rewrite C2; auto; try lra; lia|].
    rewrite C3 by lia; fold ne; rewrite <- Ens.
    assert (0 < ns) by (rewrite Ens; apply IZR_lt; lia).
    assert (0 < / ne) by (apply Rinv_0_lt_compat; lra).
    unfold Rdiv; nra.
Qed.

(** On a one-hot target column the buffer [correctProbs] holds the
    probability the prediction gives to the correct class. *)
Lemma correctProbs_onehot (m : nat) (y t : Tensor) (j c : nat) :
  (c < m)%nat -> length y = m -> col j t = onehot c m ->
  Rsum (zipWith Rmult (col j y) (col j t)) = get y c j.
Proof.
  intros Hc Ey Et; rewrite Et, <- Ey, <- (col_length j y).
  rewrite Rsum_onehot by (rewrite col_length; lia).
  apply col_nth.
Qed.

(** ** TopKMisclassification: the top-k value *)

(** C10.  On an example (column [j]) whose target column is one-hot with
    correct class [c], write [nSlots] for [k] minus the number of classes
    strictly more probable than the correct one and [nEq] for the number of
    classes as probable as it.  Then [nEq >= 1]; the top-k value of the
    example is 1 when [nSlots <= 0], 0 when [0 < nSlots] and
    [nEq <= nSlots], and [1 - nSlots/nEq] when [0 < nSlots < nEq]; it lies
    in [0, 1]. *)
Theorem topk_value `{Backend} (m n : nat) (y t : Tensor) (j c : nat)
    (s : TopKMisclassification.self) :
  has_shape m n y -> has_shape m n t -> (j < n)%nat -> (c < m)%nat ->
  col j t = onehot c m ->
  let nGreater := count (fun x => Rgtb x (get y c j)) (col j y) in
  let nEq := count (fun x => Reqb x (get y c j)) (col j y) in
  let nSlots := (TopKMisclassification.k s - Z.of_nat nGreater)%Z in
  let v := get (TopKMisclassification.topk
                  (state (TopKMisclassification.__call__ y t s))) 0 j in
  (1 <= nEq)%nat /\
  ((nSlots <= 0)%Z -> v = 1) /\
  ((0 < nSlots)%Z -> (Z.of_nat nEq <= nSlots)%Z -> v = 0) /\
  ((0 < nSlots < Z.of_nat nEq)%Z -> v = 1 - IZR nSlots / INR nEq) /\
  0 <= v <= 1.
Proof.
  intros Hy Ht Hj Hc Et nGreater nEq nSlots v.
  assert (Hm : (0 < m)%nat) by lia.
  assert (E1 : (1 <= nEq)%nat).
  { apply (count_pos _ _ c); [rewrite col_length; destruct Hy; lia|].
    rewrite col_nth; apply Reqb_refl. }
  split; [exact E1|].
  unfold v; rewrite (topk_get m n y t j Hy Ht Hm Hj s).
  rewrite (correctProbs_onehot m y t j c) by (destruct Hy; auto).
  rewrite !Rsum_count.
  exact (topk_formula_cases (TopKMisclassification.k s) nGreater nEq E1).
Qed.

(** ** TopKMisclassification: ties at the top *)

(** C4.  On an example whose target column is one-hot with correct class
    [c], where [c] attains the maximal probability and exactly two classes
    attain it, the top-1 value of the example is 0.5. *)
Theorem top1_two_way_tie `{Backend} (m n : nat) (y t : Tensor) (j c : nat)
    (s : TopKMisclassification.self) :
  has_shape m n y -> has_shape m n t -> (j < n)%nat -> (c < m)%nat ->
  col j t = onehot c m ->
  get y c j = col_max (col j y) ->
  count (fun x => Reqb x (col_max (col j y))) (col j y) = 2%nat ->
  get (TopKMisclassification.top1
         (state (TopKMisclassification.__call__ y t s))) 0 j = 1 / 2.
Proof.
  intros Hy Ht Hj Hc Et Emax Etwo.
  assert (Hm : (0 < m)%nat) by lia.
  rewrite (top1_get m n y t j Hy Ht Hm Hj s).
  rewrite (correctProbs_onehot m y t j c) by (destruct Hy; auto).
  rewrite Rsum_count, Emax, Etwo, Reqb_refl; simpl; lra.
Qed.

(** ** The maximum of a column and where it sits *)

Lemma maximum_ge x l : Forall (fun z => z <= maximum x l) (x :: l).
Proof.
  revert x; induction l as [|y l IH]; intros x; simpl.
  - constructor; [lra | constructor].
  - constructor; [apply Rmax_l|].
    eapply Forall_impl; [|exact (IH y)].
    intros z Hz; simpl in Hz; pose proof (Rmax_r x (maximum y l)); lra.
Qed.

Lemma maximum_in x l : In (maximum x l) (x :: l).
Proof.
  revert x; induction l as [|y l IH]; intros x; simpl; [auto|].
  unfold Rmax; destruct (Rle_dec x (maximum y l)); [right; apply IH | auto].
Qed.

(** [argmax_from] returns an index of the whole column [pre ++ l] whose
    entry bounds [best] and every entry still to be scanned. *)
Lemma argmax_from_spec (l pre : list R) (best : R) (bi : nat) :
  (bi < length pre)%nat -> nth bi pre 0 = best ->
  let r := argmax_from best bi (length pre) l in
  (r < length (pre ++ l))%nat /\
  best <= nth r (pre ++ l) 0 /\
  Forall (fun z => z <= nth r (pre ++ l) 0) l.
Proof.
  revert pre best bi; induction l as [|x l IH]; intros pre best bi Hb Eb; simpl.
  - rewrite app_nil_r; repeat split; [lia | lra | constructor].
  - assert (A : pre ++ x :: l = (pre ++ [x]) ++ l)
      by (now rewrite <- app_assoc).
    assert (L : S (length pre) = length (pre ++ [x]))
      by (rewrite length_app; simpl; lia).
    destruct (Rlt_dec best x) as [Lt|Ge].
    + destruct (IH (pre ++ [x]) x (length pre)) as (R1 & R2 & R3).
      * rewrite <- L; lia.
      * rewrite app_nth2, Nat.sub_diag by lia; reflexivity.
      * rewrite <- L in R1, R2, R3; rewrite A.
        repeat split; [exact R1 | lra | constructor; assumption].
    + destruct (IH (pre ++ [x]) best bi) as (R1 & R2 & R3).
      * rewrite <- L; lia.
      * rewrite app_nth1 by lia; exact Eb.
      * rewrite <- L in R1, R2, R3; rewrite A.
        repeat split; [exact R1 | exact R2 | constructor; [lra | assumption]].
Qed.

(** [col_argmax] points at an entry equal to [col_max]. *)
Lemma col_argmax_spec (yc : list R) :
  (0 < length yc)%nat ->
  (col_argmax yc < length yc)%nat /\ nth (col_argmax yc) yc 0 = col_max yc.
Proof.
  destruct yc as [|x l]; simpl; [lia|]; intros _.
  destruct (argmax_from_spec l [x] x 0) as (R1 & R2 & R3);
    [simpl; lia | reflexivity |].
  simpl in R1, R2, R3; split; [exact R1|].
  set (r := argmax_from x 0 1 l) in *.
  apply Rle_antisym.
  - pose proof (maximum_ge x l) as G; rewrite Forall_forall in G.
    apply G, (nth_In (x :: l)); exact R1.
  - pose proof (maximum_in x l) as [E|I].
    + rewrite <- E; exact R2.
    + rewrite Forall_forall in R3; exact (R3 _ I).
Qed.

Lemma col_max_ge (yc : list R) (i : nat) :
  (i < length yc)%nat -> nth i yc 0 <= col_max yc.
Proof.
  destruct yc as [|x l]; simpl length; [lia|]; intros Hi.
  pose proof (maximum_ge x l) as G; rewrite Forall_forall in G.
  apply G, nth_In; exact Hi.
Qed.

(** The decoded class of a one-hot column is its correct class. *)
Lemma argmax_from_zeros (k : nat) (bi i : nat) :
  argmax_from 1 bi i (repeat 0 k) = bi.
Proof.
  revert i; induction k as [|k IH]; intros i; simpl; [reflexivity|].
  destruct (Rlt_dec 1 0); [lra | apply IH].
Qed.

Lemma argmax_from_onehot (n c bi i : nat) :
  (c < n)%nat -> argmax_from 0 bi i (onehot c n) = (i + c)%nat.
Proof.
  revert c bi i; induction n as [|n IH]; intros [|c] bi i Hc; simpl; try lia.
  - destruct (Rlt_dec 0 1); [|lra]. rewrite argmax_from_zeros; lia.
  - destruct (Rlt_dec 0 0); [lra|]. rewrite IH by lia; lia.
Qed.

Lemma col_argmax_onehot (n c : nat) :
  (c < n)%nat -> col_argmax (onehot c n) = c.
Proof.
  destruct n as [|n]; [lia|]; destruct c as [|c]; intros Hc; simpl.
  - apply argmax_from_zeros.
  - rewrite argmax_from_onehot by lia; lia.
Qed.

Lemma count_is_count_occ (v : R) (l : list R) :
  count (fun x => Reqb x v) l = count_occ Req_dec_T l v.
Proof.
  unfold count, Reqb; induction l as [|x l IH]; simpl; [reflexivity|].
  destruct (Req_dec_T x v); simpl; congruence.
Qed.

Lemma count_eq_NoDup (yc : list R) (c : nat) :
  NoDup yc -> (c < length yc)%nat ->
  count (fun x => Reqb x (nth c yc 0)) yc = 1%nat.
Proof.
  intros N Hc; rewrite count_is_count_occ.
  apply NoDup_count_occ'; [exact N | now apply nth_In].
Qed.

Lemma count_none (p : R -> bool) (l : list R) :
  (forall x, In x l -> p x = false) -> count p l = 0%nat.
Proof.
  unfold count; induction l as [|a l IH]; intros F; simpl; [reflexivity|].
  rewrite (F a) by (now left); apply IH; intros x Hx; apply F; now right.
Qed.

Lemma Misclassification_state (y t : Tensor) (s : Misclassification.self) :
  state (Misclassification.__call__ y t s)
  = {| Misclassification.preds :=
         be.not_equal (be.argmax y) (be.argmax t);
       Misclassification.hyps := be.argmax t |}.
Proof. reflexivity. Qed.

Lemma Misclassification_get (m n : nat) (y t : Tensor) (j : nat)
    (s : Misclassification.self) :
  has_shape m n y -> has_shape m n t -> (0 < m)%nat -> (j < n)%nat ->
  get (Misclassification.outputs
         (state (Misclassification.__call__ y t s))) 0 j
  = b2r (negb (Reqb (INR (col_argmax (col j y)))
                 (INR (col_argmax (col j t))))).
Proof.
  intros Hy Ht Hm Hj; rewrite Misclassification_state.
  unfold Misclassification.outputs; cbn [Misclassification.preds].
  unfold be.not_equal; rewrite (get_ew2 _ 1 n); [| shape | shape | lia | auto].
  unfold be.argmax; now rewrite !(reduce0_get_shape _ m n).
Qed.

(** One column without ties: the value of line 237, the value of line 236
    for [k = 1], and the misclassification indicator agree. *)
Lemma no_tie_column (yc : list R) (c : nat) :
  NoDup yc -> (c < length yc)%nat ->
  let cp := nth c yc 0 in
  let nEq := Rsum (map (fun x => b2r (Reqb x cp)) yc) in
  let nSlots := IZR 1 - Rsum (map (fun x => b2r (Rgtb x cp)) yc) in
  let wrong := b2r (negb (Reqb (INR (col_argmax yc)) (INR c))) in
  1 - b2r (Reqb (col_max yc) cp) / nEq = wrong /\
  1 - b2r (Rgtb nSlots 0)
      * (b2r (Rleb nEq nSlots) * (1 - nSlots / nEq) + nSlots / nEq) = wrong.
Proof.
  intros N Hc cp nEq nSlots wrong.
  destruct (col_argmax_spec yc ltac:(lia)) as [Ha Emax].
  assert (E1 : count (fun x => Reqb x cp) yc = 1%nat)
    by (now apply count_eq_NoDup).
  destruct (topk_formula_cases 1 (count (fun x => Rgtb x cp) yc)
              (count (fun x => Reqb x cp) yc) ltac:(lia))
    as (K1 & K2 & _).
  unfold nEq, nSlots; rewrite !Rsum_count; rewrite E1 in *.
  destruct (Nat.eq_dec (col_argmax yc) c) as [E|NE].
  - assert (W : wrong = 0) by (unfold wrong; rewrite E, Reqb_refl; reflexivity).
    rewrite W; split.
    + rewrite <- Emax, E; fold cp; rewrite Reqb_refl; simpl; lra.
    + apply K2.
      * rewrite count_none; [lia|].
        intros x Hx; unfold Rgtb; destruct (Rlt_dec cp x) as [L|]; auto.
        destruct (In_nth _ _ 0 Hx) as (i & Hi & <-).
        pose proof (col_max_ge yc i Hi) as G.
        rewrite <- Emax, E in G; fold cp in G; lra.
      * rewrite count_none; [lia|].
        intros x Hx; unfold Rgtb; destruct (Rlt_dec cp x) as [L|]; auto.
        destruct (In_nth _ _ 0 Hx) as (i & Hi & <-).
        pose proof (col_max_ge yc i Hi) as G.
        rewrite <- Emax, E in G; fold cp in G; lra.
  - assert (D : nth (col_argmax yc) yc 0 <> cp).
    { intros E; apply NE.
      rewrite NoDup_nth in N; apply (N _ _ Ha Hc E). }
    assert (W : wrong = 1).
    { unfold wrong, Reqb.
      destruct (Req_dec_T (INR (col_argmax yc)) (INR c)) as [E|_];
        [apply INR_eq in E; contradiction | reflexivity]. }
    rewrite W; split.
    + unfold Reqb; destruct (Req_dec_T (col_max yc) cp) as [E|_];
        [rewrite <- Emax in E; contradiction | simpl; lra].
    + apply K1.
      assert (P : (1 <= count (fun x => Rgtb x cp) yc)%nat).
      { apply (count_pos _ _ (col_argmax yc) Ha), Rgtb_true.
        pose proof (col_max_ge yc c Hc) as G; rewrite <- Emax in G.
        fold cp in G; lra. }
      lia.
Qed.

(** ** TopKMisclassification with k = 1 and Misclassification *)

(** C5.  For [y] and [t] of one shape with at least one class, every target
    column one-hot and no prediction column holding a probability twice,
    TopKMisclassification built with [k = 1] leaves in its buffer [top1],
    and also in its buffer [topk], exactly the per-example indicators that
    Misclassification leaves in its buffer [outputs]. *)
Theorem TopK_k1_is_Misclassification `{Backend} (m n : nat) (y t : Tensor)
    (s : TopKMisclassification.self) (sm : Misclassification.self) :
  has_shape m n y -> has_shape m n t -> (0 < m)%nat ->
  (forall j, (j < n)%nat -> NoDup (col j y)) ->
  (forall j, (j < n)%nat -> exists c, (c < m)%nat /\ col j t = onehot c m) ->
  TopKMisclassification.k s = 1%Z ->
  TopKMisclassification.top1 (state (TopKMisclassification.__call__ y t s))
  = Misclassification.outputs (state (Misclassification.__call__ y t sm)) /\
  TopKMisclassification.topk (state (TopKMisclassification.__call__ y t s))
  = Misclassification.outputs (state (Misclassification.__call__ y t sm)).
Proof.
  intros Hy Ht Hm Hnd Hoh Hk.
  assert (SM : has_shape 1 n (Misclassification.outputs
                                (state (Misclassification.__call__ y t sm)))).
  { rewrite Misclassification_state; unfold Misclassification.outputs;
      cbn [Misclassification.preds]; shape. }
  assert (S1 : has_shape 1 n (TopKMisclassification.top1
                 (state (TopKMisclassification.__call__ y t s)))).
  { rewrite TopK_state; cbn [TopKMisclassification.top1]; shape. }
  assert (SK : has_shape 1 n (TopKMisclassification.topk
                 (state (TopKMisclassification.__call__ y t s)))).
  { rewrite TopK_state; cbn [TopKMisclassification.topk].
    set (NE := be.sum (t_eq y (be.sum (t_mul y t)))).
    set (NS := s_sub _ (be.sum (t_gt y (be.sum (t_mul y t))))).
    assert (SE : has_shape 1 n NE) by (unfold NE; shape).
    assert (SS : has_shape 1 n NS) by (unfold NS; shape).
    unfold s_sub, t_mul, t_add, t_gt_s, t_le, t_div; auto 8 with shape. }
  assert (C : forall j, (j < n)%nat ->
    get (TopKMisclassification.top1
           (state (TopKMisclassification.__call__ y t s))) 0 j
    = get (Misclassification.outputs
             (state (Misclassification.__call__ y t sm))) 0 j /\
    get (TopKMisclassification.topk
           (state (TopKMisclassification.__call__ y t s))) 0 j
    = get (Misclassification.outputs
             (state (Misclassification.__call__ y t sm))) 0 j).
  { intros j Hj.
    destruct (Hoh j Hj) as (c & Hc & Et).
    rewrite (top1_get m n y t j Hy Ht Hm Hj s),
      (topk_get m n y t j Hy Ht Hm Hj s),
      (Misclassification_get m n y t j sm Hy Ht Hm Hj), Hk.
    rewrite (correctProbs_onehot m y t j c) by (destruct Hy; auto).
    rewrite Et, col_argmax_onehot by exact Hc.
    rewrite <- (col_nth j y c).
    apply no_tie_column; [auto | rewrite col_length; destruct Hy; lia]. }
  split; apply (one_row_ext n); auto; intros j Hj; apply (C j Hj).
Qed.

(** ** Cross entropy is non-negative *)

Lemma zipWith_Forall {A B C} (f : A -> B -> C) (P : A -> Prop) (Q : B -> Prop)
    (S : C -> Prop) l l' :
  (forall x y, P x -> Q y -> S (f x y)) ->
  Forall P l -> Forall Q l' -> Forall S (zipWith f l l').
Proof.
  intros F Hl; revert l'; induction Hl as [|x l Px Hl IH];
    intros l' Hl'; simpl; [constructor|].
  destruct Hl' as [|y l' Qy Hl']; constructor; auto.
Qed.

Lemma entries_ew1 (f : R -> R) (P Q : R -> Prop) a :
  (forall x, P x -> Q (f x)) -> entries P a -> entries Q (ew1 f a).
Proof.
  intros F Ha; unfold entries, ew1; apply Forall_map.
  eapply Forall_impl; [|exact Ha]; intros r Hr; simpl.
  apply Forall_map; eapply Forall_impl; [|exact Hr]; auto.
Qed.

Lemma entries_ew2 (f : R -> R -> R) (P Q S : R -> Prop) a b :
  (forall x y, P x -> Q y -> S (f x y)) ->
  entries P a -> entries Q b -> entries S (ew2 f a b).
Proof.
  intros F Ha Hb; unfold entries in *.
  assert (Z : Forall (Forall S) (zipWith (zipWith f) a b))
    by (apply (zipWith_Forall _ (Forall P) (Forall Q)); auto;
        intros; now apply (zipWith_Forall f P Q)).
  assert (RA : forall ra, Forall P ra ->
             Forall (Forall S) (map (fun rb => zipWith f ra rb) b)).
  { intros ra Hra; apply Forall_map; eapply Forall_impl; [|exact Hb].
    intros rb Hrb; simpl; now apply (zipWith_Forall f P Q). }
  assert (RB : forall rb, Forall Q rb ->
             Forall (Forall S) (map (fun ra => zipWith f ra rb) a)).
  { intros rb Hrb; apply Forall_map; eapply Forall_impl; [|exact Ha].
    intros ra Hra; simpl; now apply (zipWith_Forall f P Q). }
  unfold ew2; destruct a as [|ra [|ra' a]]; destruct b as [|rb [|rb' b]];
    auto; try (apply RA; now inversion Ha); try (apply RB; now inversion Hb).
Qed.

Lemma Rsum_nonneg (l : list R) : Forall (fun x => 0 <= x) l -> 0 <= Rsum l.
Proof.
  induction 1 as [|x l Hx Hl IH]; [simpl; lra | rewrite Rsum_cons; lra].
Qed.

Lemma entries_sum_nonneg (a : Tensor) :
  entries (fun x => 0 <= x) a -> entries (fun x => 0 <= x) (be.sum a).
Proof.
  intros Ha; unfold entries, be.sum, be.reduce0.
  constructor; [|constructor].
  apply Forall_map, Forall_forall; intros j _; simpl.
  apply Rsum_nonneg; unfold col; apply Forall_map.
  eapply Forall_impl; [|exact Ha]; intros r Hr; simpl.
  destruct (nth_in_or_default j r 0) as [I|E]; [|rewrite E; lra].
  rewrite Forall_forall in Hr; exact (Hr _ I).
Qed.

Lemma ln_nonpos (z : R) : 0 < z -> z <= 1 -> ln z <= 0.
Proof.
  intros Hz [L|E]; [|rewrite E, ln_1; lra].
  left; rewrite <- ln_1; now apply ln_increasing.
Qed.

(** The safe logarithm of a number that is at most 1 is at most 0. *)
Lemma safelog_nonpos `{Backend} (a : Tensor) :
  safelog_floor <= 1 ->
  entries (fun x => x <= 1) a -> entries (fun x => x <= 0) (be.safelog a).
Proof.
  intros Hf; apply entries_ew1; intros x Hx.
  pose proof safelog_floor_pos as Pf.
  apply ln_nonpos.
  - pose proof (Rmax_r x safelog_floor); lra.
  - now apply Rmax_lub.
Qed.

Lemma entries_weaken (P Q : R -> Prop) a :
  (forall x, P x -> Q x) -> entries P a -> entries Q a.
Proof.
  intros F Ha; unfold entries; eapply Forall_impl; [|exact Ha].
  intros r Hr; eapply Forall_impl; [|exact Hr]; auto.
Qed.

Lemma logscale_pos (scale : R) (usebits : bool) :
  0 < CrossEntropyMulti.logscale (CrossEntropyMulti.__init__ scale usebits).
Proof.
  destruct usebits; simpl; [|lra].
  pose proof ln_lt_2 as L.
  assert (0 < / ln 2) by (apply Rinv_0_lt_compat; lra).
  unfold Rdiv; lra.
Qed.

(** C6.  For [y] and [t] of one shape whose entries all lie in (0, 1], and
    a safe logarithm that clamps at a floor of at most 1, every component of
    the loss of CrossEntropyBinary, and every component of the loss of a
    CrossEntropyMulti built by [__init__] (in nats or in bits), is at least
    0. *)
Theorem cross_entropy_nonneg `{Backend} (m n : nat) (y t : Tensor)
    (sb : CrossEntropyBinary.self) (scale : R) (usebits : bool) :
  safelog_floor <= 1 ->
  has_shape m n y -> has_shape m n t ->
  entries (fun x => 0 < x <= 1) y -> entries (fun x => 0 < x <= 1) t ->
  (exists loss,
      result (CrossEntropyBinary.__call__ y t sb) = Return loss /\
      entries (fun x => 0 <= x) loss) /\
  (exists loss,
      result (CrossEntropyMulti.__call__ y t
                (CrossEntropyMulti.__init__ scale usebits)) = Return loss /\
      entries (fun x => 0 <= x) loss).
Proof.
  intros Hf _ _ Ey Et; split; eexists; (split; [reflexivity|]);
    apply entries_sum_nonneg.
  - unfold t_add; apply (entries_ew2 _ (fun x => 0 <= x) (fun x => 0 <= x));
      [intros; lra | |].
    + unfold t_mul;
        apply (entries_ew2 _ (fun x => 0 <= x) (fun x => 0 < x <= 1));
        [intros; nra | | exact Et].
      unfold t_neg; apply (entries_ew1 _ (fun x => x <= 0)); [intros; lra|].
      apply safelog_nonpos; [exact Hf|].
      eapply entries_weaken; [|exact Ey]; simpl; intros; lra.
    + unfold t_mul;
        apply (entries_ew2 _ (fun x => 0 <= x) (fun x => 0 <= x));
        [intros; nra | |].
      * unfold t_neg; apply (entries_ew1 _ (fun x => x <= 0)); [intros; lra|].
        apply safelog_nonpos; [exact Hf|].
        unfold s_sub; apply (entries_ew1 _ (fun x => 0 < x <= 1));
          [intros; lra | exact Ey].
      * unfold s_sub; apply (entries_ew1 _ (fun x => 0 < x <= 1));
          [intros; lra | exact Et].
  - pose proof (logscale_pos scale usebits) as Lp.
    unfold t_mul; apply (entries_ew2 _ (fun x => x <= 0) (fun x => x <= 0));
      [intros; nra | |].
    + unfold t_mul_s; apply (entries_ew1 _ (fun x => x <= 0)); [intros; nra|].
      unfold t_neg; apply (entries_ew1 _ (fun x => 0 < x <= 1));
        [intros; lra | exact Et].
    + apply safelog_nonpos; [exact Hf|].
      eapply entries_weaken; [|exact Ey]; simpl; intros; lra.
Qed.

(** ** SumSquared and its derivative *)

Lemma set_nth_length {A} (i : nat) (x : A) l :
  length (set_nth i x l) = length l.
Proof.
  revert i; induction l as [|y l IH]; intros [|i]; simpl; auto.
Qed.

Lemma set_nth_same {A} (i : nat) (x d : A) l :
  (i < length l)%nat -> nth i (set_nth i x l) d = x.
Proof.
  revert i; induction l as [|y l IH]; intros [|i] Hi; simpl in *;
    try lia; auto.
  apply IH; lia.
Qed.

Lemma set_nth_other {A} (i k : nat) (x d : A) l :
  k <> i -> nth k (set_nth i x l) d = nth k l d.
Proof.
  revert i k; induction l as [|y l IH]; intros [|i] [|k] Hk; simpl;
    try reflexivity; try lia.
  apply IH; lia.
Qed.

Lemma set_nth_map {A B} (f : A -> B) (i : nat) (x : A) l :
  map f (set_nth i x l) = set_nth i (f x) (map f l).
Proof.
  revert i; induction l as [|y l IH]; intros [|i]; simpl; auto.
  now rewrite IH.
Qed.

Lemma set_nth_id {A} (i : nat) (d : A) l :
  (i < length l)%nat -> set_nth i (nth i l d) l = l.
Proof.
  revert i; induction l as [|y l IH]; intros [|i] Hi; simpl in *;
    try lia; auto.
  now rewrite IH by lia.
Qed.

Lemma set_Forall {A} (P : A -> Prop) (i : nat) (x : A) l :
  P x -> Forall P l -> Forall P (set_nth i x l).
Proof.
  intros Px Hl; revert i; induction Hl as [|y l Py Hl IH]; intros [|i];
    simpl; constructor; auto.
Qed.

Lemma set_shape (m n : nat) (y : Tensor) (i j : nat) (x : R) :
  has_shape m n y -> (i < m)%nat -> has_shape m n (set y i j x).
Proof.
  intros Hy Hi; pose proof (has_shape_row m n y i Hy Hi) as Er.
  destruct Hy as [E F]; split; unfold set.
  - now rewrite set_nth_length.
  - apply set_Forall; [now rewrite set_nth_length | exact F].
Qed.

Lemma col_set (m n : nat) (y : Tensor) (i j : nat) (x : R) :
  has_shape m n y -> (i < m)%nat -> (j < n)%nat ->
  col j (set y i j x) = set_nth i x (col j y).
Proof.
  intros Hy Hi Hj; unfold col, set; rewrite set_nth_map; f_equal.
  apply set_nth_same; now rewrite (has_shape_row m n y i Hy Hi).
Qed.

Lemma col_set_other (m n : nat) (y : Tensor) (i j j' : nat) (x : R) :
  has_shape m n y -> (i < m)%nat -> j' <> j ->
  col j' (set y i j x) = col j' y.
Proof.
  intros Hy Hi Hj; unfold col, set; rewrite set_nth_map.
  rewrite set_nth_other by exact Hj.
  rewrite <- (map_nth (fun r => nth j' r 0) y [] i).
  apply set_nth_id; rewrite length_map; destruct Hy; lia.
Qed.

(** The loss of one example, as a function of one of its predictions. *)
Lemma squares_split (yc tc : list R) (i : nat) :
  (i < length yc)%nat -> length yc = length tc ->
  exists C, forall x,
    Rsum (map (fun d => d * d) (zipWith Rminus (set_nth i x yc) tc))
    = (x - nth i tc 0) * (x - nth i tc 0) + C.
Proof.
  revert tc i; induction yc as [|a yc IH]; intros [|b tc] [|i] Hi E;
    simpl in Hi, E; try lia.
  - exists (Rsum (map (fun d => d * d) (zipWith Rminus yc tc))); intros x.
    now cbn [set_nth zipWith map nth]; rewrite Rsum_cons.
  - destruct (IH tc i) as [C HC]; [lia | lia |].
    exists ((a - b) * (a - b) + C); intros x.
    cbn [set_nth zipWith map nth]; rewrite Rsum_cons, HC; lra.
Qed.

Lemma loss_get (m n : nat) (y t : Tensor) (j : nat) :
  has_shape m n y -> has_shape m n t -> (0 < m)%nat -> (j < n)%nat ->
  get (t_div_s (be.sum (be.square (t_sub y t))) 2) 0 j
  = Rsum (map (fun d => d * d) (zipWith Rminus (col j y) (col j t))) / 2.
Proof.
  intros Hy Ht Hm Hj.
  unfold t_div_s; rewrite (get_ew1 _ 1 n); [| shape | lia | exact Hj].
  unfold be.sum; rewrite (reduce0_get_shape _ m n); [| shape | auto | auto].
  unfold be.square; rewrite (col_ew1 _ j m n); [| shape | exact Hj].
  unfold t_sub; now rewrite (col_ew2 _ j m n).
Qed.

(** The derivative of [x |-> ((x - a)^2 + C) / 2] is [x - a]. *)
Lemma half_square_derivative (f : R -> R) (a C x0 : R) :
  (forall x, f x = ((x - a) * (x - a) + C) / 2) ->
  derivable_pt_lim f x0 (x0 - a).
Proof.
  intros Ef eps He; exists (mkposreal eps He); intros h Hh Hb; simpl in Hb.
  rewrite !Ef.
  replace ((((x0 + h - a) * (x0 + h - a) + C) / 2
            - ((x0 - a) * (x0 - a) + C) / 2) / h - (x0 - a))
    with (h / 2) by (field; exact Hh).
  unfold Rabs in *; destruct (Rcase_abs h), (Rcase_abs (h / 2)); lra.
Qed.

Lemma constant_derivative (f : R -> R) (C x0 : R) :
  (forall x, f x = C) -> derivable_pt_lim f x0 0.
Proof.
  intros Ef eps He; exists (mkposreal eps He); intros h Hh Hb.
  rewrite !Ef.
  replace ((C - C) / h - 0) with 0 by (field; exact Hh).
  now rewrite Rabs_R0.
Qed.

(** C7.  SumSquared's loss is [sum(square(y-t), axis=0)/2] and its gradient
    is [y - t]; for [y] and [t] of one shape, entry [(i, j)] of the gradient
    is the derivative of the loss of example [j] with respect to the
    prediction [y[i][j]], and the loss of any other example does not depend
    on [y[i][j]]; the object is unchanged. *)
Theorem SumSquared_gradient (m n : nat) (y t : Tensor) :
  has_shape m n y -> has_shape m n t ->
  Cost.__call__ y t SumSquared.__init__
  = (Return (t_div_s (be.sum (be.square (t_sub y t))) 2),
     SumSquared.__init__) /\
  Cost.bprop y t SumSquared.__init__
  = (Return (t_sub y t), SumSquared.__init__) /\
  (forall i j, (i < m)%nat -> (j < n)%nat ->
     get (t_sub y t) i j = get y i j - get t i j /\
     derivable_pt_lim
       (fun x => get (Cost.func SumSquared.__init__ (set y i j x) t) 0 j)
       (get y i j)
       (get (Cost.funcgrad SumSquared.__init__ y t) i j) /\
     (forall j', (j' < n)%nat -> j' <> j ->
        derivable_pt_lim
          (fun x => get (Cost.func SumSquared.__init__ (set y i j x) t) 0 j')
          (get y i j) 0)).
Proof.
  intros Hy Ht; split; [reflexivity | split; [reflexivity|]].
  intros i j Hi Hj.
  assert (Hm : (0 < m)%nat) by lia.
  assert (G : get (t_sub y t) i j = get y i j - get t i j)
    by (unfold t_sub; now apply (get_ew2 _ m n)).
  split; [exact G|].
  cbn [Cost.func Cost.funcgrad SumSquared.__init__]; split.
  - rewrite G.
    destruct (squares_split (col j y) (col j t) i) as [C HC];
      [rewrite col_length; destruct Hy; lia
      | rewrite !col_length; destruct Hy, Ht; lia |].
    apply (half_square_derivative _ _ C); intros x.
    rewrite (loss_get m n) by (auto using set_shape).
    rewrite (col_set m n) by assumption.
    now rewrite HC, col_nth.
  - intros j' Hj' Ne.
    apply (constant_derivative _
             (Rsum (map (fun d => d * d)
                      (zipWith Rminus (col j' y) (col j' t))) / 2)).
    intros x; rewrite (loss_get m n) by (auto using set_shape).
    now rewrite (col_set_other m n) by assumption.
Qed.

(** ** The theorems at concrete inputs *)

(** Decides the comparisons of a goal over concrete reals. *)
Ltac real_decide :=
  unfold count, col_max; simpl;
  repeat match goal with
    | |- context [Rmax ?a ?b] =>
        first [rewrite (Rmax_left a b) by lra
              | rewrite (Rmax_right a b) by lra]
    end;
  unfold Reqb, Rgtb, Rleb; simpl;
  repeat match goal with
    | |- context [Req_dec_T ?a ?b] =>
        destruct (Req_dec_T a b) as [?E|?E];
        [try (exfalso; lra) | try (exfalso; apply E; lra)]
    | |- context [Rle_dec ?a ?b] =>
        destruct (Rle_dec a b) as [?E|?E];
        [try (exfalso; lra) | try (exfalso; apply E; lra)]
    | |- context [Rlt_dec ?a ?b] =>
        destruct (Rlt_dec a b) as [?E|?E];
        [try (exfalso; lra) | try (exfalso; apply E; lra)]
    end;
  simpl; try reflexivity; try lra.

Lemma accuracy_plus_misclassification_witness :
  exists a e : R,
    result (Accuracy.__call__ y_example t_example
              (Accuracy.__init__ (H := unit_batch_backend))) = Return a /\
    result (Misclassification.__call__ y_example t_example
              (Misclassification.__init__ (H := unit_batch_backend)))
    = Return e /\
    a + e = 1.
Proof.
  apply (accuracy_plus_misclassification 2 1).
  - split; [reflexivity | repeat constructor].
  - split; [reflexivity | repeat constructor].
  - lia.
  - lia.
Defined.

Lemma top1_two_way_tie_witness :
  get (TopKMisclassification.top1
         (state (TopKMisclassification.__call__ (H := unit_batch_backend)
                   y_tie t_tie
                   (TopKMisclassification.__init__
                      (H := unit_batch_backend) 1)))) 0 0 = 1 / 2.
Proof.
  apply (@top1_two_way_tie unit_batch_backend 3 1 y_tie t_tie 0 0).
  - split; [reflexivity | repeat constructor].
  - split; [reflexivity | repeat constructor].
  - lia.
  - lia.
  - reflexivity.
  - unfold get, y_tie; real_decide.
  - unfold y_tie; real_decide.
Defined.

Lemma TopK_k1_is_Misclassification_witness :
  TopKMisclassification.top1
    (state (TopKMisclassification.__call__ (H := unit_batch_backend)
              y_example t_example
              (TopKMisclassification.__init__ (H := unit_batch_backend) 1)))
  = Misclassification.outputs
      (state (Misclassification.__call__ y_example t_example
                (Misclassification.__init__ (H := unit_batch_backend)))) /\
  TopKMisclassification.topk
    (state (TopKMisclassification.__call__ (H := unit_batch_backend)
              y_example t_example
              (TopKMisclassification.__init__ (H := unit_batch_backend) 1)))
  = Misclassification.outputs
      (state (Misclassification.__call__ y_example t_example
                (Misclassification.__init__ (H := unit_batch_backend)))).
Proof.
  apply (@TopK_k1_is_Misclassification unit_batch_backend 2 1).
  - split; [reflexivity | repeat constructor].
  - split; [reflexivity | repeat constructor].
  - lia.
  - intros j Hj; assert (j = 0%nat) as -> by lia; unfold y_example; simpl.
    constructor; [simpl; intros [E|[]]; lra|].
    constructor; [simpl; tauto | constructor].
  - intros j Hj; assert (j = 0%nat) as -> by lia.
    exists 0%nat; split; [lia | reflexivity].
  - reflexivity.
Defined.

Lemma cross_entropy_nonneg_witness :
  (exists loss,
      result (CrossEntropyBinary.__call__ (H := unit_batch_backend)
                y_example t_soft (CrossEntropyBinary.__init__ 1))
      = Return loss /\
      entries (fun x => 0 <= x) loss) /\
  (exists loss,
      result (CrossEntropyMulti.__call__ (H := unit_batch_backend)
                y_example t_soft (CrossEntropyMulti.__init__ 1 true))
      = Return loss /\
      entries (fun x => 0 <= x) loss).
Proof.
  apply (@cross_entropy_nonneg unit_batch_backend 2 1).
  - simpl; pose proof exp_m50_small; lra.
  - split; [reflexivity | repeat constructor].
  - split; [reflexivity | repeat constructor].
  - unfold y_example; repeat constructor; lra.
  - unfold t_soft; repeat constructor; lra.
Defined.

Lemma SumSquared_gradient_witness :
  Cost.bprop y_example t_example SumSquared.__init__
  = (Return (t_sub y_example t_example), SumSquared.__init__) /\
  derivable_pt_lim
    (fun x => get (Cost.func SumSquared.__init__ (set y_example 0 0 x)
                     t_example) 0 0)
    (get y_example 0 0)
    (get (Cost.funcgrad SumSquared.__init__ y_example t_example) 0 0).
Proof.
  assert (Hy : has_shape 2 1 y_example)
    by (split; [reflexivity | repeat constructor]).
  assert (Ht : has_shape 2 1 t_example)
    by (split; [reflexivity | repeat constructor]).
  destruct (SumSquared_gradient 2 1 y_example t_example Hy Ht)
    as (_ & B & D).
  split; [exact B|].
  destruct (D 0%nat 0%nat ltac:(lia) ltac:(lia)) as (_ & D1 & _).
  exact D1.
Defined.

Lemma topk_value_witness :
  0 <= get (TopKMisclassification.topk
              (state (TopKMisclassification.__call__
                        (H := unit_batch_backend) y_example t_example
                        (TopKMisclassification.__init__
                           (H := unit_batch_backend) 1)))) 0 0 <= 1.
Proof.
  assert (Hy : has_shape 2 1 y_example)
    by (split; [reflexivity | repeat constructor]).
  assert (Ht : has_shape 2 1 t_example)
    by (split; [reflexivity | repeat constructor]).
  destruct (@topk_value unit_batch_backend 2 1 y_example t_example 0 0
              (TopKMisclassification.__init__ (H := unit_batch_backend) 1)
              Hy Ht ltac:(lia) ltac:(lia) eq_refl)
    as (_ & _ & _ & _ & B).
  exact B.
Defined.

(** * Further properties *)

(** ** TopKMisclassification: shapes of the buffers *)

Lemma TopK_buffers_shape `{Backend} (m n : nat) (y t : Tensor)
    (s : TopKMisclassification.self) :
  has_shape m n y -> has_shape m n t -> (0 < m)%nat ->
  has_shape 1 n (TopKMisclassification.correctProbs
                   (state (TopKMisclassification.__call__ y t s))) /\
  has_shape 1 n (TopKMisclassification.top1
                   (state (TopKMisclassification.__call__ y t s))) /\
  has_shape 1 n (TopKMisclassification.topk
                   (state (TopKMisclassification.__call__ y t s))).
Proof.
  intros Hy Ht Hm; rewrite TopK_state.
  cbn [TopKMisclassification.correctProbs TopKMisclassification.top1
         TopKMisclassification.topk].
  set (NE := be.sum (t_eq y (be.sum (t_mul y t)))).
  set (NS := s_sub _ (be.sum (t_gt y (be.sum (t_mul y t))))).
  assert (SE : has_shape 1 n NE) by (unfold NE; shape).
  assert (SS : has_shape 1 n NS) by (unfold NS; shape).
  split; [|split].
  - unfold t_neg, be.safelog; shape.
  - assert (SC : has_shape 1 n (be.sum (t_mul y t))) by shape.
    assert (SM : has_shape 1 n (be.max y)) by shape.
    unfold s_sub, t_div, t_eq; auto 8 with shape.
  - unfold s_sub, t_mul, t_add, t_gt_s, t_le, t_div; auto 8 with shape.
Qed.

(** ** TopKMisclassification: one example of a one-hot batch *)

Lemma count_greater_equal (v : R) (l : list R) :
  (count (fun x => Rgtb x v) l + count (fun x => Reqb x v) l
   <= length l)%nat.
Proof.
  unfold count; induction l as [|x l IH]; simpl; [lia|].
  unfold Rgtb at 1, Reqb at 1.
  destruct (Rlt_dec v x), (Req_dec_T x v); simpl; try lia; lra.
Qed.

Section OneHotColumn.

Context `{Backend}.
Variables (m n : nat) (y t : Tensor) (j c : nat).
Hypothesis Hy : has_shape m n y.
Hypothesis Ht : has_shape m n t.
Hypothesis Hj : (j < n)%nat.
Hypothesis Hc : (c < m)%nat.
Hypothesis Et : col j t = onehot c m.

Let nGreater := count (fun x => Rgtb x (get y c j)) (col j y).
Let nEq := count (fun x => Reqb x (get y c j)) (col j y).

Lemma nEq_pos : (1 <= nEq)%nat.
Proof.
  apply (count_pos _ _ c); [rewrite col_length; destruct Hy; lia|].
  rewrite col_nth; apply Reqb_refl.
Qed.

Lemma topk_get_counts (s : TopKMisclassification.self) :
  get (TopKMisclassification.topk
         (state (TopKMisclassification.__call__ y t s))) 0 j
  = topk_of_counts (TopKMisclassification.k s) nGreater nEq.
Proof.
  rewrite (topk_get m n y t j Hy Ht ltac:(lia) Hj s).
  rewrite (correctProbs_onehot m y t j c) by (destruct Hy; auto).
  now rewrite !Rsum_count.
Qed.

Lemma top1_get_counts (s : TopKMisclassification.self) :
  get (TopKMisclassification.top1
         (state (TopKMisclassification.__call__ y t s))) 0 j
  = 1 - b2r (Reqb (col_max (col j y)) (get y c j)) / INR nEq.
Proof.
  rewrite (top1_get m n y t j Hy Ht ltac:(lia) Hj s).
  rewrite (correctProbs_onehot m y t j c) by (destruct Hy; auto).
  now rewrite Rsum_count.
Qed.

(** The correct class is maximal exactly when no class is strictly more
    probable. *)
Lemma correct_is_max_iff :
  get y c j = col_max (col j y) <-> nGreater = 0%nat.
Proof.
  assert (Lc : (c < length (col j y))%nat)
    by (rewrite col_length; destruct Hy; lia).
  pose proof (col_max_ge (col j y) c Lc) as G; rewrite col_nth in G.
  destruct (col_argmax_spec (col j y) ltac:(lia)) as [Ha Emax].
  split.
  - intros E; apply count_none; intros x Hx.
    unfold Rgtb; destruct (Rlt_dec (get y c j) x) as [L|]; auto.
    destruct (In_nth _ _ 0 Hx) as (i & Hi & <-).
    pose proof (col_max_ge (col j y) i Hi); lra.
  - intros Z; apply Rle_antisym; [exact G|].
    destruct (Rle_dec (col_max (col j y)) (get y c j)) as [L|L]; [exact L|].
    assert (P : (1 <= nGreater)%nat);
      [|unfold nGreater in *; lia].
    apply (count_pos _ _ (col_argmax (col j y)) Ha).
    unfold Rgtb; rewrite Emax.
    destruct (Rlt_dec (get y c j) (col_max (col j y))); [reflexivity | lra].
Qed.

Lemma counts_within_classes : (nGreater + nEq <= m)%nat.
Proof.
  assert (L : length (col j y) = m) by (rewrite col_length; destruct Hy; lia).
  rewrite <- L; apply count_greater_equal.
Qed.

End OneHotColumn.

Lemma topk_of_counts_cases (kz : Z) (nGt nE : nat) :
  (1 <= nE)%nat ->
  let nSlots := (kz - Z.of_nat nGt)%Z in
  let v := topk_of_counts kz nGt nE in
  ((nSlots <= 0)%Z -> v = 1) /\
  ((0 < nSlots)%Z -> (Z.of_nat nE <= nSlots)%Z -> v = 0) /\
  ((0 < nSlots < Z.of_nat nE)%Z -> v = 1 - IZR nSlots / INR nE) /\
  0 <= v <= 1.
Proof. intros He; exact (topk_formula_cases kz nGt nE He). Qed.

Lemma topk_of_counts_mono (k k' : Z) (nGt nE : nat) :
  (1 <= nE)%nat -> (k <= k')%Z ->
  topk_of_counts k' nGt nE <= topk_of_counts k nGt nE.
Proof.
  intros He Hk.
  destruct (topk_of_counts_cases k nGt nE He) as (A1 & A2 & A3 & A4).
  destruct (topk_of_counts_cases k' nGt nE He) as (B1 & B2 & B3 & B4).
  destruct (Z_le_gt_dec (k - Z.of_nat nGt) 0) as [L|L];
    [rewrite (A1 L); lra|].
  destruct (Z_le_gt_dec (Z.of_nat nE) (k' - Z.of_nat nGt)) as [L'|L'];
    [rewrite (B2 ltac:(lia) L'); lra|].
  rewrite A3, B3 by lia.
  assert (P : 0 < / INR nE)
    by (apply Rinv_0_lt_compat, lt_0_INR; lia).
  assert (Q : IZR (k - Z.of_nat nGt) <= IZR (k' - Z.of_nat nGt))
    by (apply IZR_le; lia).
  unfold Rdiv; nra.
Qed.

Lemma topk_of_counts_one (nGt nE : nat) :
  (1 <= nE)%nat ->
  topk_of_counts 1 nGt nE
  = if Nat.eqb nGt 0 then 1 - 1 / INR nE else 1.
Proof.
  intros He.
  destruct (topk_of_counts_cases 1 nGt nE He) as (A1 & A2 & A3 & _).
  destruct nGt as [|g]; simpl Nat.eqb.
  - destruct (Nat.eq_dec nE 1) as [->|N].
    + rewrite A2 by (simpl; lia); simpl; lra.
    + rewrite A3 by (simpl; lia); reflexivity.
  - apply A1; lia.
Qed.

(** ** TopKMisclassification: the top-1 value with ties of any width *)

Lemma top1_cases `{Backend} (m n : nat) (y t : Tensor) (j c : nat)
    (s : TopKMisclassification.self) :
  has_shape m n y -> has_shape m n t -> (j < n)%nat -> (c < m)%nat ->
  col j t = onehot c m ->
  let nEq := count (fun x => Reqb x (get y c j)) (col j y) in
  let v := get (TopKMisclassification.top1
                  (state (TopKMisclassification.__call__ y t s))) 0 j in
  (1 <= nEq)%nat /\
  (get y c j = col_max (col j y) -> v = 1 - 1 / INR nEq) /\
  (get y c j <> col_max (col j y) -> v = 1) /\
  0 <= v <= 1.
Proof.
  intros Hy Ht Hj Hc Et nEq v.
  pose proof (nEq_pos m n y j c Hy Hj Hc) as He; fold nEq in He.
  assert (P : 1 <= INR nEq) by (change 1 with (INR 1); apply le_INR; lia).
  assert (Q : 0 < / INR nEq) by (apply Rinv_0_lt_compat; lra).
  assert (I : INR nEq * / INR nEq = 1) by (apply Rinv_r; lra).
  unfold v; rewrite (top1_get_counts m n y t j c Hy Ht Hj Hc Et s); fold nEq.
  split; [exact He|].
  unfold Reqb; destruct (Req_dec_T (col_max (col j y)) (get y c j)) as [E|N];
    simpl; repeat split; intros; try congruence; unfold Rdiv; try nra.
Qed.

(** X1.  On an example with a one-hot target, the top-1 value is
    [1 - 1/nEq] when the correct class attains the maximal probability,
    [nEq] being the number of classes that attain it, and 1 otherwise; it
    lies in [0, 1]. *)
Theorem top1_value `{Backend} (m n : nat) (y t : Tensor) (j c : nat)
    (s : TopKMisclassification.self) :
  has_shape m n y -> has_shape m n t -> (j < n)%nat -> (c < m)%nat ->
  col j t = onehot c m ->
  let nEq := count (fun x => Reqb x (get y c j)) (col j y) in
  let v := get (TopKMisclassification.top1
                  (state (TopKMisclassification.__call__ y t s))) 0 j in
  (1 <= nEq)%nat /\
  (get y c j = col_max (col j y) -> v = 1 - 1 / INR nEq) /\
  (get y c j <> col_max (col j y) -> v = 1) /\
  0 <= v <= 1.
Proof. exact (top1_cases m n y t j c s). Qed.

Lemma top1_value_witness :
  0 <= get (TopKMisclassification.top1
              (state (TopKMisclassification.__call__
                        (H := unit_batch_backend) y_tie t_tie
                        (TopKMisclassification.__init__
                           (H := unit_batch_backend) 5)))) 0 0 <= 1.
Proof.
  assert (Hy : has_shape 3 1 y_tie)
    by (split; [reflexivity | repeat constructor]).
  assert (Ht : has_shape 3 1 t_tie)
    by (split; [reflexivity | repeat constructor]).
  exact (proj2 (proj2 (proj2
    (@top1_value unit_batch_backend 3 1 y_tie t_tie 0 0
       (TopKMisclassification.__init__ (H := unit_batch_backend) 5)
       Hy Ht ltac:(lia) ltac:(lia) eq_refl)))).
Defined.

(** ** TopKMisclassification: how the top-k value depends on k *)

(** X2.  On a batch of one-hot targets, a TopKMisclassification built with
    [k = 1] leaves the same values in its buffer [topk] as in its buffer
    [top1], ties included. *)
Theorem topk_k1_equals_top1 `{Backend} (m n : nat) (y t : Tensor)
    (s : TopKMisclassification.self) :
  has_shape m n y -> has_shape m n t -> (0 < m)%nat ->
  onehot_columns m n t ->
  TopKMisclassification.k s = 1%Z ->
  TopKMisclassification.topk (state (TopKMisclassification.__call__ y t s))
  = TopKMisclassification.top1 (state (TopKMisclassification.__call__ y t s)).
Proof.
  intros Hy Ht Hm Hoh Hk.
  destruct (TopK_buffers_shape m n y t s Hy Ht Hm) as (_ & S1 & SK).
  apply (one_row_ext n); auto; intros j Hj.
  destruct (Hoh j Hj) as (c & Hc & Et).
  rewrite (topk_get_counts m n y t j c Hy Ht Hj Hc Et s), Hk,
    (top1_get_counts m n y t j c Hy Ht Hj Hc Et s).
  rewrite topk_of_counts_one by (apply (nEq_pos m n y j c Hy Hj Hc)).
  pose proof (correct_is_max_iff m n y j c Hy Hj Hc) as M.
  destruct (Nat.eqb_spec (count (fun x => Rgtb x (get y c j)) (col j y)) 0)
    as [Z|NZ].
  - apply M in Z; rewrite <- Z, Reqb_refl; reflexivity.
  - unfold Reqb.
    destruct (Req_dec_T (col_max (col j y)) (get y c j)) as [E|N];
      [symmetry in E; apply M in E; contradiction | simpl; lra].
Qed.

Lemma topk_k1_equals_top1_witness :
  TopKMisclassification.topk
    (state (TopKMisclassification.__call__ (H := unit_batch_backend)
              y_tie t_tie
              (TopKMisclassification.__init__ (H := unit_batch_backend) 1)))
  = TopKMisclassification.top1
      (state (TopKMisclassification.__call__ (H := unit_batch_backend)
                y_tie t_tie
                (TopKMisclassification.__init__
                   (H := unit_batch_backend) 1))).
Proof.
  apply (@topk_k1_equals_top1 unit_batch_backend 3 1).
  - split; [reflexivity | repeat constructor].
  - split; [reflexivity | repeat constructor].
  - lia.
  - intros j Hj; assert (j = 0%nat) as -> by lia.
    exists 0%nat; split; [lia | reflexivity].
  - reflexivity.
Defined.

(** X3.  On an example with a one-hot target, a larger [k] never gives a
    larger top-k value: for two objects with [k <= k'] the value of the
    second is at most the value of the first. *)
Theorem topk_antitone_in_k `{Backend} (m n : nat) (y t : Tensor) (j c : nat)
    (s s' : TopKMisclassification.self) :
  has_shape m n y -> has_shape m n t -> (j < n)%nat -> (c < m)%nat ->
  col j t = onehot c m ->
  (TopKMisclassification.k s <= TopKMisclassification.k s')%Z ->
  get (TopKMisclassification.topk
         (state (TopKMisclassification.__call__ y t s'))) 0 j
  <= get (TopKMisclassification.topk
            (state (TopKMisclassification.__call__ y t s))) 0 j.
Proof.
  intros Hy Ht Hj Hc Et Hk.
  rewrite !(topk_get_counts m n y t j c Hy Ht Hj Hc Et).
  apply topk_of_counts_mono; [apply (nEq_pos m n y j c Hy Hj Hc) | exact Hk].
Qed.

Lemma topk_antitone_in_k_witness :
  get (TopKMisclassification.topk
         (state (TopKMisclassification.__call__ (H := unit_batch_backend)
                   y_tie t_tie
                   (TopKMisclassification.__init__
                      (H := unit_batch_backend) 2)))) 0 0
  <= get (TopKMisclassification.topk
            (state (TopKMisclassification.__call__ (H := unit_batch_backend)
                      y_tie t_tie
                      (TopKMisclassification.__init__
                         (H := unit_batch_backend) 1)))) 0 0.
Proof.
  apply (@topk_antitone_in_k unit_batch_backend 3 1 y_tie t_tie 0 0).
  - split; [reflexivity | repeat constructor].
  - split; [reflexivity | repeat constructor].
  - lia.
  - lia.
  - reflexivity.
  - simpl; lia.
Defined.

Lemma topk_le_top1_example `{Backend} (m n : nat) (y t : Tensor) (j c : nat)
    (s : TopKMisclassification.self) :
  has_shape m n y -> has_shape m n t -> (j < n)%nat -> (c < m)%nat ->
  col j t = onehot c m ->
  (1 <= TopKMisclassification.k s)%Z ->
  get (TopKMisclassification.topk
         (state (TopKMisclassification.__call__ y t s))) 0 j
  <= get (TopKMisclassification.top1
            (state (TopKMisclassification.__call__ y t s))) 0 j.
Proof.
  intros Hy Ht Hj Hc Et Hk.
  pose proof (nEq_pos m n y j c Hy Hj Hc) as He.
  rewrite (topk_get_counts m n y t j c Hy Ht Hj Hc Et s),
    (top1_get_counts m n y t j c Hy Ht Hj Hc Et s).
  eapply Rle_trans; [apply (topk_of_counts_mono 1); [exact He | exact Hk]|].
  rewrite topk_of_counts_one by exact He.
  pose proof (correct_is_max_iff m n y j c Hy Hj Hc) as M.
  destruct (Nat.eqb_spec (count (fun x => Rgtb x (get y c j)) (col j y)) 0)
    as [Z|NZ].
  - apply M in Z; rewrite <- Z, Reqb_refl; simpl; lra.
  - unfold Reqb.
    destruct (Req_dec_T (col_max (col j y)) (get y c j)) as [E|N];
      [symmetry in E; apply M in E; contradiction | simpl; lra].
Qed.

(** X4.  On an example with a one-hot target and [k >= 1], the top-k value
    is at most the top-1 value. *)
Theorem topk_at_most_top1 `{Backend} (m n : nat) (y t : Tensor) (j c : nat)
    (s : TopKMisclassification.self) :
  has_shape m n y -> has_shape m n t -> (j < n)%nat -> (c < m)%nat ->
  col j t = onehot c m ->
  (1 <= TopKMisclassification.k s)%Z ->
  get (TopKMisclassification.topk
         (state (TopKMisclassification.__call__ y t s))) 0 j
  <= get (TopKMisclassification.top1
            (state (TopKMisclassification.__call__ y t s))) 0 j.
Proof. exact (topk_le_top1_example m n y t j c s). Qed.

Lemma topk_at_most_top1_witness :
  get (TopKMisclassification.topk
         (state (TopKMisclassification.__call__ (H := unit_batch_backend)
                   y_tie t_tie
                   (TopKMisclassification.__init__
                      (H := unit_batch_backend) 2)))) 0 0
  <= get (TopKMisclassification.top1
            (state (TopKMisclassification.__call__ (H := unit_batch_backend)
                      y_tie t_tie
                      (TopKMisclassification.__init__
                         (H := unit_batch_backend) 2)))) 0 0.
Proof.
  apply (@topk_at_most_top1 unit_batch_backend 3 1 y_tie t_tie 0 0).
  - split; [reflexivity | repeat constructor].
  - split; [reflexivity | repeat constructor].
  - lia.
  - lia.
  - reflexivity.
  - simpl; lia.
Defined.

(** X5.  The constructor does not validate [k].  On an example with a
    one-hot target, [k <= 0] makes the top-k value 1 whatever the
    prediction, and [k] at least the number of classes makes it 0. *)
Theorem topk_extreme_k `{Backend} (m n : nat) (y t : Tensor) (j c : nat)
    (s : TopKMisclassification.self) :
  has_shape m n y -> has_shape m n t -> (j < n)%nat -> (c < m)%nat ->
  col j t = onehot c m ->
  let v := get (TopKMisclassification.topk
                  (state (TopKMisclassification.__call__ y t s))) 0 j in
  ((TopKMisclassification.k s <= 0)%Z -> v = 1) /\
  ((Z.of_nat m <= TopKMisclassification.k s)%Z -> v = 0).
Proof.
  intros Hy Ht Hj Hc Et v.
  pose proof (nEq_pos m n y j c Hy Hj Hc) as He.
  pose proof (counts_within_classes m n y j c Hy Hj Hc) as W.
  unfold v; rewrite (topk_get_counts m n y t j c Hy Ht Hj Hc Et s).
  destruct (topk_of_counts_cases (TopKMisclassification.k s)
              (count (fun x => Rgtb x (get y c j)) (col j y)) _ He)
    as (A1 & A2 & _).
  split; intros K; [apply A1 | apply A2]; lia.
Qed.

Lemma topk_extreme_k_witness :
  get (TopKMisclassification.topk
         (state (TopKMisclassification.__call__ (H := unit_batch_backend)
                   y_tie t_tie
                   (TopKMisclassification.__init__
                      (H := unit_batch_backend) 3)))) 0 0 = 0.
Proof.
  apply (@topk_extreme_k unit_batch_backend 3 1 y_tie t_tie 0 0).
  - split; [reflexivity | repeat constructor].
  - split; [reflexivity | repeat constructor].
  - lia.
  - lia.
  - reflexivity.
  - simpl; lia.
Defined.

(** ** TopKMisclassification: the returned means *)





Lemma one_row (n : nat) (a : Tensor) :
  has_shape 1 n a -> exists r, a = [r] /\ length r = n.
Proof.
  intros [E F]; destruct a as [|r [|? ?]]; simpl in E; try discriminate.
  exists r; split; [reflexivity | now inversion F].
Qed.

Lemma Forall_nth_R (P : R -> Prop) (l : list R) :
  (forall i, (i < length l)%nat -> P (nth i l 0)) -> Forall P l.
Proof.
  intros F; apply Forall_forall; intros x Hx.
  destruct (In_nth _ _ 0 Hx) as (i & Hi & <-); auto.
Qed.


(** ** Accuracy and Misclassification as rates *)

Lemma zipWith_map_same {A} (f : R -> R -> R) (g g' : A -> R) (l : list A) :
  zipWith f (map g l) (map g' l) = map (fun a => f (g a) (g' a)) l.
Proof. induction l as [|a l IH]; simpl; [reflexivity | now rewrite IH]. Qed.

Lemma Rsum_b2r_filter {A} (p : A -> bool) (l : list A) :
  Rsum (map (fun a => b2r (p a)) l) = INR (length (filter p l)).
Proof.
  induction l as [|a l IH]; [reflexivity|].
  cbn [map filter]; rewrite Rsum_cons, IH.
  destruct (p a); cbn [b2r length]; [rewrite S_INR|]; lra.
Qed.

Lemma filter_negb_length {A} (p : A -> bool) (l : list A) :
  (length (filter (fun a => negb (p a)) l) + length (filter p l)
   = length l)%nat.
Proof.
  induction l as [|a l IH]; simpl; [reflexivity|].
  destruct (p a); simpl; lia.
Qed.

Lemma filter_all_length {A} (p : A -> bool) (l : list A) :
  length (filter p l) = length l <-> forall a, In a l -> p a = true.
Proof.
  induction l as [|a l IH]; simpl; [split; [intros _ ? []|reflexivity]|].
  pose proof (filter_length_le p l) as Le.
  destruct (p a) eqn:Pa; simpl; split.
  - intros E b [<-|Hb]; [exact Pa | apply IH; [lia | exact Hb]].
  - intros F; f_equal; apply IH; auto.
  - intros E; lia.
  - intros F; rewrite (F a) in Pa by auto; discriminate.
Qed.

Lemma Reqb_INR (a b : nat) : Reqb (INR a) (INR b) = Nat.eqb a b.
Proof.
  unfold Reqb; destruct (Req_dec_T (INR a) (INR b)) as [E|N];
    destruct (Nat.eqb_spec a b) as [E'|N']; try reflexivity; exfalso.
  - apply INR_eq in E; contradiction.
  - subst; contradiction.
Qed.

(** The per-example buffers the two metrics leave behind. *)
Lemma decoded_rows (m n : nat) (y t : Tensor)
    (sa : Accuracy.self) (sm : Misclassification.self) :
  has_shape m n y -> has_shape m n t -> (0 < m)%nat ->
  Accuracy.outputs (state (Accuracy.__call__ y t sa))
  = [map (fun j => b2r (decoded_equal y t j)) (seq 0 n)] /\
  Misclassification.outputs (state (Misclassification.__call__ y t sm))
  = [map (fun j => b2r (negb (decoded_equal y t j))) (seq 0 n)].
Proof.
  intros Hy Ht Hm.
  unfold Accuracy.outputs, Misclassification.outputs; simpl.
  unfold be.equal, be.not_equal, t_eq, be.argmax, be.reduce0, ew2.
  rewrite (has_shape_shape1 m n y Hy Hm), (has_shape_shape1 m n t Ht Hm).
  cbn [map]; rewrite !zipWith_map_same.
  split; f_equal; apply map_ext; intros j; unfold decoded_equal;
    now rewrite Reqb_INR.
Qed.

Lemma hits_le (m n : nat) (y t : Tensor) :
  has_shape m n y -> (0 < m)%nat -> (hits y t <= n)%nat.
Proof.
  intros Hy Hm; unfold hits; rewrite (has_shape_shape1 m n y Hy Hm).
  pose proof (filter_length_le (decoded_equal y t) (seq 0 n)) as L.
  now rewrite length_seq in L.
Qed.

Lemma metric_rates (m n : nat) (y t : Tensor)
    (sa : Accuracy.self) (sm : Misclassification.self) :
  has_shape m n y -> has_shape m n t -> (0 < m)%nat ->
  result (Accuracy.__call__ y t sa) = Return (INR (hits y t) / INR n) /\
  result (Misclassification.__call__ y t sm)
  = Return (INR (n - hits y t) / INR n).
Proof.
  intros Hy Ht Hm.
  destruct (decoded_rows m n y t sa sm Hy Ht Hm) as [EA EM].
  pose proof (hits_le m n y t Hy Hm) as Le.
  change (result (Accuracy.__call__ y t sa))
    with (Return (mean_all (Accuracy.outputs
                              (state (Accuracy.__call__ y t sa))))).
  change (result (Misclassification.__call__ y t sm))
    with (Return (mean_all (Misclassification.outputs
                              (state (Misclassification.__call__ y t sm))))).
  rewrite EA, EM; unfold mean_all, col_mean; cbn [concat].
  rewrite !app_nil_r, !length_map, !length_seq, !Rsum_b2r_filter.
  pose proof (filter_negb_length (decoded_equal y t) (seq 0 n)) as C.
  rewrite length_seq in C.
  unfold hits in *; rewrite (has_shape_shape1 m n y Hy Hm) in *.
  split; [reflexivity|].
  replace (n - length (filter (decoded_equal y t) (seq 0 n)))%nat
    with (length (filter (fun a => negb (decoded_equal y t a)) (seq 0 n)))
    by lia.
  reflexivity.
Qed.

(** X7.  For [y] and [t] of one shape, Accuracy returns the fraction of the
    examples whose decoded prediction equals the decoded target, and
    Misclassification the fraction of the others; both lie in [0, 1]. *)
Theorem accuracy_is_hit_rate (m n : nat) (y t : Tensor)
    (sa : Accuracy.self) (sm : Misclassification.self) :
  has_shape m n y -> has_shape m n t -> (0 < m)%nat -> (0 < n)%nat ->
  (hits y t <= n)%nat /\
  result (Accuracy.__call__ y t sa) = Return (INR (hits y t) / INR n) /\
  result (Misclassification.__call__ y t sm)
  = Return (INR (n - hits y t) / INR n) /\
  0 <= INR (hits y t) / INR n <= 1 /\
  0 <= INR (n - hits y t) / INR n <= 1.
Proof.
  intros Hy Ht Hm Hn.
  pose proof (hits_le m n y t Hy Hm) as Le.
  destruct (metric_rates m n y t sa sm Hy Ht Hm) as [EA EM].
  assert (P : 0 < INR n) by (apply lt_0_INR; exact Hn).
  assert (Q : 0 < / INR n) by (apply Rinv_0_lt_compat; exact P).
  assert (I : INR n * / INR n = 1) by (apply Rinv_r; lra).
  assert (B : forall h, (h <= n)%nat -> 0 <= INR h / INR n <= 1).
  { intros h Hh; pose proof (pos_INR h); apply le_INR in Hh.
    unfold Rdiv; split; nra. }
  repeat split; auto; apply B; lia.
Qed.

(** X8.  On a non-empty batch Accuracy returns 1 exactly when every example
    is decoded to the class of its target, and then, and only then,
    Misclassification returns 0; in particular for [y = t]. *)
Theorem accuracy_one_iff_all_hit (m n : nat) (y t : Tensor)
    (sa : Accuracy.self) (sm : Misclassification.self) :
  has_shape m n y -> has_shape m n t -> (0 < m)%nat -> (0 < n)%nat ->
  (result (Accuracy.__call__ y t sa) = Return 1
   <-> forall j, (j < n)%nat -> decoded_equal y t j = true) /\
  (result (Misclassification.__call__ y t sm) = Return 0
   <-> forall j, (j < n)%nat -> decoded_equal y t j = true) /\
  result (Accuracy.__call__ y y sa) = Return 1 /\
  result (Misclassification.__call__ y y sm) = Return 0.
Proof.
  intros Hy Ht Hm Hn.
  pose proof (hits_le m n y t Hy Hm) as Le.
  assert (P : 0 < INR n) by (apply lt_0_INR; exact Hn).
  assert (A : hits y t = n <-> forall j, (j < n)%nat -> decoded_equal y t j = true).
  { unfold hits; rewrite (has_shape_shape1 m n y Hy Hm).
    pose proof (filter_all_length (decoded_equal y t) (seq 0 n)) as FA.
    rewrite length_seq in FA; rewrite FA.
    split; intros F j Hj; apply F;
      [apply in_seq; lia | apply in_seq in Hj; lia]. }
  assert (D : forall h, (h <= n)%nat -> (INR h / INR n = 1 <-> h = n)).
  { intros h Hh; split; [|intros ->; field; lra].
    intros E; apply INR_eq.
    apply (Rmult_eq_compat_r (INR n)) in E.
    unfold Rdiv in E; rewrite Rmult_assoc, Rinv_l in E by lra; lra. }
  assert (Z : forall h, (h <= n)%nat -> (INR (n - h) / INR n = 0 <-> h = n)).
  { intros h Hh; split.
    - intros E; apply (Rmult_eq_compat_r (INR n)) in E.
      unfold Rdiv in E; rewrite Rmult_assoc, Rinv_l in E by lra.
      assert (E0 : INR (n - h) = INR 0) by (simpl; lra).
      apply INR_eq in E0; lia.
    - intros ->; rewrite Nat.sub_diag; simpl; unfold Rdiv; lra. }
  destruct (metric_rates m n y t sa sm Hy Ht Hm) as [EA EM].
  destruct (metric_rates m n y y sa sm Hy Hy Hm) as [EA' EM'].
  assert (Hyy : hits y y = n).
  { unfold hits; rewrite (has_shape_shape1 m n y Hy Hm).
    pose proof (filter_all_length (decoded_equal y y) (seq 0 n)) as FA.
    rewrite length_seq in FA; apply FA.
    intros j _; unfold decoded_equal; apply Nat.eqb_refl. }
  repeat split.
  - rewrite EA; intros E; injection E as E; apply A, (D _ Le), E.
  - intros F; rewrite EA; f_equal; apply (D _ Le), A, F.
  - rewrite EM; intros E; injection E as E; apply A, (Z _ Le), E.
  - intros F; rewrite EM; f_equal; apply (Z _ Le), A, F.
  - rewrite EA', Hyy; f_equal; field; lra.
  - rewrite EM', Hyy, Nat.sub_diag; f_equal; simpl; unfold Rdiv; lra.
Qed.

(** ** Cross entropy, column by column *)

Lemma bce_columns `{Backend} (yc tc : list R) :
  zipWith Rplus
    (zipWith Rmult
       (map Ropp (map (fun x => ln (Rmax x safelog_floor)) yc)) tc)
    (zipWith Rmult
       (map Ropp (map (fun x => ln (Rmax x safelog_floor))
                    (map (fun x => 1 - x) yc)))
       (map (fun x => 1 - x) tc))
  = zipWith bce_term yc tc.
Proof.
  revert tc; induction yc as [|x yc IH]; intros [|u tc]; simpl;
    try reflexivity.
  now rewrite IH.
Qed.

(** Entry [j] of the loss of CrossEntropyBinary is the sum of the binary
    cross entropies of column [j]. *)
Lemma CrossEntropyBinary_get `{Backend} (m n : nat) (y t : Tensor) (j : nat) :
  has_shape m n y -> has_shape m n t -> (0 < m)%nat -> (j < n)%nat ->
  get (be.sum (t_add (t_mul (t_neg (be.safelog y)) t)
                 (t_mul (t_neg (be.safelog (s_sub 1 y))) (s_sub 1 t)))) 0 j
  = Rsum (zipWith bce_term (col j y) (col j t)).
Proof.
  intros Hy Ht Hm Hj.
  assert (S1 : has_shape m n (be.safelog y)) by (unfold be.safelog; shape).
  assert (S2 : has_shape m n (s_sub 1 y)) by shape.
  assert (S3 : has_shape m n (be.safelog (s_sub 1 y)))
    by (unfold be.safelog; shape).
  assert (S4 : has_shape m n (s_sub 1 t)) by shape.
  assert (S5 : has_shape m n (t_neg (be.safelog y))) by shape.
  assert (S6 : has_shape m n (t_neg (be.safelog (s_sub 1 y)))) by shape.
  assert (S7 : has_shape m n (t_mul (t_neg (be.safelog y)) t)) by shape.
  assert (S8 : has_shape m n (t_mul (t_neg (be.safelog (s_sub 1 y)))
                                (s_sub 1 t))) by shape.
  unfold be.sum; rewrite (reduce0_get_shape _ m n); [| shape | auto | auto].
  unfold t_add; rewrite (col_ew2 _ j m n) by assumption.
  unfold t_mul; rewrite !(col_ew2 _ j m n) by assumption.
  unfold t_neg; rewrite !(col_ew1 _ j m n) by assumption.
  unfold be.safelog; rewrite !(col_ew1 _ j m n) by assumption.
  unfold s_sub; rewrite !(col_ew1 _ j m n) by assumption.
  now rewrite bce_columns.
Qed.

Lemma CrossEntropyBinary_loss_shape `{Backend} (m n : nat) (y t : Tensor) :
  has_shape m n y -> has_shape m n t -> (0 < m)%nat ->
  has_shape 1 n
    (be.sum (t_add (t_mul (t_neg (be.safelog y)) t)
               (t_mul (t_neg (be.safelog (s_sub 1 y))) (s_sub 1 t)))).
Proof. intros Hy Ht Hm; unfold be.safelog; shape. Qed.

Lemma entries_of_row (P : R -> Prop) (n : nat) (a : Tensor) :
  has_shape 1 n a -> (forall j, (j < n)%nat -> P (get a 0 j)) -> entries P a.
Proof.
  intros Sa F; destruct (one_row n a Sa) as (r & -> & L).
  constructor; [|constructor]; apply Forall_nth_R; intros i Hi.
  apply (F i); lia.
Qed.

Lemma bce_term_exact `{Backend} (x : R) :
  safelog_floor <= 1 -> x = 0 \/ x = 1 -> bce_term x x = 0.
Proof.
  intros Hf [-> | ->]; unfold bce_term.
  - replace (1 - 0) with 1 by lra.
    rewrite (Rmax_left 1 safelog_floor), ln_1 by exact Hf; lra.
  - rewrite (Rmax_left 1 safelog_floor), ln_1 by exact Hf; lra.
Qed.

(** X9.  With a safe logarithm that clamps at a floor of at most 1, a
    prediction equal to a target of zeros and ones has the loss 0 in
    every example, although it takes the logarithm at 0. *)
Theorem CrossEntropyBinary_exact_prediction `{Backend} (m n : nat)
    (t : Tensor) (s : CrossEntropyBinary.self) :
  safelog_floor <= 1 -> has_shape m n t -> (0 < m)%nat ->
  entries (fun x => x = 0 \/ x = 1) t ->
  exists loss,
    result (CrossEntropyBinary.__call__ t t s) = Return loss /\
    has_shape 1 n loss /\
    entries (fun x => x = 0) loss.
Proof.
  intros Hf Ht Hm Et; eexists; split; [reflexivity|].
  split; [now apply (CrossEntropyBinary_loss_shape m n)|].
  apply (entries_of_row _ n); [now apply (CrossEntropyBinary_loss_shape m n)|].
  intros j Hj; rewrite (CrossEntropyBinary_get m n) by assumption.
  assert (F : Forall (fun x => x = 0 \/ x = 1) (col j t)).
  { unfold col; apply Forall_map; eapply Forall_impl; [|exact Et].
    intros r Hr; simpl.
    destruct (nth_in_or_default j r 0) as [I|E]; [|left; exact E].
    rewrite Forall_forall in Hr; exact (Hr _ I). }
  induction F as [|x l Hx Hl IH]; [reflexivity|].
  cbn [zipWith]; rewrite Rsum_cons, IH, (bce_term_exact x Hf Hx); lra.
Qed.

(** X10.  The loss of CrossEntropyBinary does not change when prediction
    and target are both replaced by their complements [1 - y] and
    [1 - t]. *)
Theorem CrossEntropyBinary_complement `{Backend} (m n : nat) (y t : Tensor)
    (s : CrossEntropyBinary.self) :
  has_shape m n y -> has_shape m n t -> (0 < m)%nat ->
  result (CrossEntropyBinary.__call__ (s_sub 1 y) (s_sub 1 t) s)
  = result (CrossEntropyBinary.__call__ y t s).
Proof.
  intros Hy Ht Hm.
  assert (Sy : has_shape m n (s_sub 1 y)) by shape.
  assert (St : has_shape m n (s_sub 1 t)) by shape.
  unfold result, CrossEntropyBinary.__call__, ret; cbn [fst]; f_equal.
  apply (one_row_ext n);
    try (now apply (CrossEntropyBinary_loss_shape m n)).
  intros j Hj; rewrite !(CrossEntropyBinary_get m n) by assumption.
  unfold s_sub; rewrite !(col_ew1 _ j m n) by assumption.
  f_equal; generalize (col j t); induction (col j y) as [|x l IH];
    intros [|u l']; simpl; try reflexivity.
  rewrite IH; f_equal; unfold bce_term.
  replace (1 - (1 - x)) with x by lra.
  replace (1 - (1 - u)) with u by lra; lra.
Qed.

(** ** CrossEntropyMulti *)

Lemma Rsum_scaled (c : R) (a b : list R) :
  Rsum (zipWith Rmult (map (fun x => x * c) a) b)
  = c * Rsum (zipWith Rmult a b).
Proof.
  revert b; induction a as [|x a IH]; intros [|u b]; simpl;
    try (unfold Rsum; simpl; lra).
  fold (Rsum (zipWith Rmult (map (fun x => x * c) a) b)).
  fold (Rsum (zipWith Rmult a b)); rewrite IH; lra.
Qed.

Lemma Rsum_negated_zeros (k : nat) (l : list R) :
  Rsum (zipWith Rmult (map Ropp (repeat 0 k)) l) = 0.
Proof.
  revert l; induction k as [|k IH]; intros [|x l]; cbn [repeat map zipWith];
    try reflexivity.
  rewrite Rsum_cons, IH; lra.
Qed.

Lemma Rsum_negated_onehot (c : nat) (l : list R) :
  (c < length l)%nat ->
  Rsum (zipWith Rmult (map Ropp (onehot c (length l))) l) = - nth c l 0.
Proof.
  revert c; induction l as [|x l IH]; intros [|c] Hc;
    cbn [length onehot map zipWith nth] in *; try lia.
  - rewrite Rsum_cons, Rsum_negated_zeros; lra.
  - rewrite Rsum_cons, IH by lia; lra.
Qed.

(** Entry [j] of the loss of CrossEntropyMulti. *)
Lemma CrossEntropyMulti_get `{Backend} (m n : nat) (y t : Tensor) (j : nat)
    (ls : R) :
  has_shape m n y -> has_shape m n t -> (0 < m)%nat -> (j < n)%nat ->
  get (be.sum (t_mul (t_mul_s (t_neg t) ls) (be.safelog y))) 0 j
  = ls * Rsum (zipWith Rmult (map Ropp (col j t))
                 (map (fun x => ln (Rmax x safelog_floor)) (col j y))).
Proof.
  intros Hy Ht Hm Hj.
  assert (S1 : has_shape m n (be.safelog y)) by (unfold be.safelog; shape).
  assert (S2 : has_shape m n (t_neg t)) by shape.
  assert (S3 : has_shape m n (t_mul_s (t_neg t) ls)) by shape.
  unfold be.sum; rewrite (reduce0_get_shape _ m n); [| shape | auto | auto].
  unfold t_mul; rewrite (col_ew2 _ j m n) by assumption.
  unfold t_mul_s; rewrite (col_ew1 _ j m n) by assumption.
  unfold t_neg; rewrite (col_ew1 _ j m n) by assumption.
  unfold be.safelog; rewrite (col_ew1 _ j m n) by assumption.
  apply Rsum_scaled.
Qed.

Lemma CrossEntropyMulti_loss_shape `{Backend} (m n : nat) (y t : Tensor)
    (ls : R) :
  has_shape m n y -> has_shape m n t -> (0 < m)%nat ->
  has_shape 1 n (be.sum (t_mul (t_mul_s (t_neg t) ls) (be.safelog y))).
Proof. intros Hy Ht Hm; unfold be.safelog; shape. Qed.

Lemma CrossEntropyMulti_onehot_get `{Backend} (m n : nat) (y t : Tensor)
    (j c : nat) (ls : R) :
  has_shape m n y -> has_shape m n t -> (j < n)%nat -> (c < m)%nat ->
  col j t = onehot c m ->
  get (be.sum (t_mul (t_mul_s (t_neg t) ls) (be.safelog y))) 0 j
  = - ls * ln (Rmax (get y c j) safelog_floor).
Proof.
  intros Hy Ht Hj Hc Et.
  rewrite (CrossEntropyMulti_get m n) by (auto; lia).
  assert (L : length (col j y) = m) by (rewrite col_length; destruct Hy; lia).
  rewrite Et, <- L, <- (length_map (fun x => ln (Rmax x safelog_floor))).
  rewrite Rsum_negated_onehot by (rewrite length_map; lia).
  rewrite (nth_indep _ 0 (ln (Rmax 0 safelog_floor)))
    by (rewrite length_map; lia).
  rewrite (map_nth (fun x => ln (Rmax x safelog_floor))), col_nth; lra.
Qed.

(** X11.  On an example with a one-hot target the loss of CrossEntropyMulti
    is [-logscale] times the safe logarithm of the probability given to the
    correct class: [-logscale * ln p] when [p] is not below the clamp. *)
Theorem CrossEntropyMulti_onehot `{Backend} (m n : nat) (y t : Tensor)
    (j c : nat) (s : CrossEntropyMulti.self) :
  has_shape m n y -> has_shape m n t -> (j < n)%nat -> (c < m)%nat ->
  col j t = onehot c m ->
  exists loss,
    result (CrossEntropyMulti.__call__ y t s) = Return loss /\
    get loss 0 j
    = - CrossEntropyMulti.logscale s * ln (Rmax (get y c j) safelog_floor) /\
    (safelog_floor <= get y c j ->
     get loss 0 j = - CrossEntropyMulti.logscale s * ln (get y c j)).
Proof.
  intros Hy Ht Hj Hc Et; eexists; split; [reflexivity|].
  rewrite (CrossEntropyMulti_onehot_get m n y t j c) by assumption.
  split; [reflexivity|]; intros Hf; now rewrite Rmax_left.
Qed.

(** X12.  On a batch of one-hot targets the log-loss buffer
    [correctProbs] that TopKMisclassification leaves behind holds the loss
    of a CrossEntropyMulti in nats. *)
Theorem TopK_logloss_is_CrossEntropyMulti `{Backend} (m n : nat)
    (y t : Tensor) (s : TopKMisclassification.self) (scale : R) :
  has_shape m n y -> has_shape m n t -> (0 < m)%nat ->
  onehot_columns m n t ->
  result (CrossEntropyMulti.__call__ y t
            (CrossEntropyMulti.__init__ scale false))
  = Return (TopKMisclassification.correctProbs
              (state (TopKMisclassification.__call__ y t s))).
Proof.
  intros Hy Ht Hm Hoh.
  destruct (TopK_buffers_shape m n y t s Hy Ht Hm) as (S0 & _ & _).
  unfold result, CrossEntropyMulti.__call__, bind, read, ret;
    cbn [fst CrossEntropyMulti.logscale CrossEntropyMulti.__init__]; f_equal.
  apply (one_row_ext n);
    [now apply (CrossEntropyMulti_loss_shape m n) | exact S0 |].
  intros j Hj; destruct (Hoh j Hj) as (c & Hc & Et).
  rewrite (CrossEntropyMulti_onehot_get m n y t j c) by assumption.
  rewrite TopK_state; cbn [TopKMisclassification.correctProbs].
  assert (SC : has_shape 1 n (be.sum (t_mul y t))) by shape.
  unfold t_neg, be.safelog; rewrite !(get_ew1 _ 1 n); auto with shape.
  rewrite (correctProbs_get m n y t j Hy Ht Hm Hj).
  rewrite (correctProbs_onehot m y t j c) by (destruct Hy; auto); lra.
Qed.

(** X13.  A CrossEntropyMulti built with [usebits] returns the loss of the
    one built without it divided by [ln 2], and the same gradient: the
    gradient does not follow the change of unit. *)
Theorem CrossEntropyMulti_bits `{Backend} (m n : nat) (y t : Tensor)
    (scale : R) :
  has_shape m n y -> has_shape m n t -> (0 < m)%nat ->
  (exists nats,
      result (CrossEntropyMulti.__call__ y t
                (CrossEntropyMulti.__init__ scale false)) = Return nats /\
      result (CrossEntropyMulti.__call__ y t
                (CrossEntropyMulti.__init__ scale true))
      = Return (t_div_s nats (ln 2))) /\
  result (CrossEntropyMulti.bprop y t (CrossEntropyMulti.__init__ scale true))
  = result (CrossEntropyMulti.bprop y t
              (CrossEntropyMulti.__init__ scale false)).
Proof.
  intros Hy Ht Hm; split; [|reflexivity].
  eexists; split; [reflexivity|].
  unfold result, CrossEntropyMulti.__call__, bind, read, ret;
    cbn [fst CrossEntropyMulti.logscale CrossEntropyMulti.__init__]; f_equal.
  pose proof (CrossEntropyMulti_loss_shape m n y t 1 Hy Ht Hm) as S1.
  apply (one_row_ext n);
    [now apply (CrossEntropyMulti_loss_shape m n)
    | unfold t_div_s; auto with shape |].
  intros j Hj; unfold t_div_s; rewrite (get_ew1 _ 1 n) by (auto; lia).
  rewrite !(CrossEntropyMulti_get m n) by assumption.
  unfold Rdiv; lra.
Qed.

(** ** Squared errors: zero loss, and the derivative of the mean *)



Lemma derivative_scaled (f g : R -> R) (k x0 l : R) :
  (forall x, f x = g x / k) ->
  derivable_pt_lim g x0 l -> derivable_pt_lim f x0 (l / k).
Proof.
  intros Ef Dg eps He.
  destruct (derivable_pt_lim_scal g (/ k) x0 l Dg eps He) as [d Hd].
  exists d; intros h Hh Hb; specialize (Hd h Hh Hb).
  unfold mult_real_fct in Hd; rewrite !Ef.
  replace ((g (x0 + h) / k - g x0 / k) / h - l / k)
    with ((/ k * g (x0 + h) - / k * g x0) / h - / k * l)
    by (unfold Rdiv; ring).
  exact Hd.
Qed.

Lemma mean_loss_get (m n : nat) (y t : Tensor) (j : nat) :
  has_shape m n y -> has_shape m n t -> (0 < m)%nat -> (j < n)%nat ->
  get (t_div_s (be.mean (be.square (t_sub y t))) 2) 0 j
  = Rsum (map (fun d => d * d) (zipWith Rminus (col j y) (col j t))) / 2
    / INR m.
Proof.
  intros Hy Ht Hm Hj.
  unfold t_div_s; rewrite (get_ew1 _ 1 n); [| shape | lia | exact Hj].
  unfold be.mean; rewrite (reduce0_get_shape _ m n); [| shape | auto | auto].
  unfold be.square; rewrite (col_ew1 _ j m n); [| shape | exact Hj].
  unfold t_sub; rewrite (col_ew2 _ j m n) by assumption.
  unfold col_mean; rewrite length_map, zipWith_length, col_length
    by (rewrite !col_length; destruct Hy, Ht; lia).
  destruct Hy as [-> _]; unfold Rdiv; ring.
Qed.

(** X15.  For [y] and [t] of one shape, entry [(i, j)] of the gradient of
    MeanSquared, [(y[i][j] - t[i][j]) / y.shape[0]], is the derivative of
    the loss MeanSquared gives example [j] with respect to [y[i][j]]. *)
Theorem MeanSquared_gradient (m n : nat) (y t : Tensor) (i j : nat) :
  has_shape m n y -> has_shape m n t -> (i < m)%nat -> (j < n)%nat ->
  get (Cost.funcgrad MeanSquared.__init__ y t) i j
  = (get y i j - get t i j) / INR m /\
  derivable_pt_lim
    (fun x => get (Cost.func MeanSquared.__init__ (set y i j x) t) 0 j)
    (get y i j)
    (get (Cost.funcgrad MeanSquared.__init__ y t) i j).
Proof.
  intros Hy Ht Hi Hj.
  assert (Hm : (0 < m)%nat) by lia.
  assert (G : get (Cost.funcgrad MeanSquared.__init__ y t) i j
              = (get y i j - get t i j) / INR m).
  { cbn [Cost.funcgrad MeanSquared.__init__].
    unfold t_div_s; rewrite (get_ew1 _ m n); [| shape | auto | auto].
    unfold t_sub; rewrite (get_ew2 _ m n) by assumption.
    unfold shape0; now destruct Hy as [-> _]. }
  split; [exact G|]; rewrite G.
  cbn [Cost.func MeanSquared.__init__].
  destruct (squares_split (col j y) (col j t) i) as [C HC];
    [rewrite col_length; destruct Hy; lia
    | rewrite !col_length; destruct Hy, Ht; lia |].
  apply (derivative_scaled _
           (fun x => ((x - get t i j) * (x - get t i j) + C) / 2)).
  - intros x; rewrite (mean_loss_get m n) by (auto using set_shape).
    rewrite (col_set m n) by assumption.
    now rewrite HC, col_nth.
  - apply (half_square_derivative _ _ C); reflexivity.
Qed.

(** ** Gradients: shape and stationary point *)

Lemma entries_iff_get (P : R -> Prop) (m n : nat) (a : Tensor) :
  has_shape m n a ->
  (entries P a <-> forall i j, (i < m)%nat -> (j < n)%nat -> P (get a i j)).
Proof.
  intros [E F]; unfold entries, get; split.
  - intros Ha i j Hi Hj; rewrite Forall_forall in Ha, F.
    assert (I : In (nth i a []) a) by (apply nth_In; lia).
    specialize (Ha _ I); rewrite Forall_forall in Ha.
    apply Ha, nth_In; rewrite (F _ I); exact Hj.
  - intros G; apply Forall_forall; intros r Hr.
    destruct (In_nth _ _ [] Hr) as (i & Hi & <-).
    apply Forall_nth_R; intros j Hj; apply G; [lia|].
    rewrite Forall_forall in F; rewrite <- (F (nth i a [])); [exact Hj|].
    apply nth_In; exact Hi.
Qed.




(** ** The metrics overwrite their buffers *)

(** X17.  What a metric returns, and the buffers it leaves, do not depend on
    what its buffers held before the call (for TopKMisclassification: on
    anything but [k]); a call on the object a first call left returns the
    same value and leaves the same buffers. *)
Theorem metrics_overwrite_buffers `{Backend} (y t : Tensor) :
  (forall s s' : TopKMisclassification.self,
      TopKMisclassification.k s = TopKMisclassification.k s' ->
      TopKMisclassification.__call__ y t s
      = TopKMisclassification.__call__ y t s') /\
  (forall s s' : Misclassification.self,
      Misclassification.__call__ y t s = Misclassification.__call__ y t s') /\
  (forall s s' : Accuracy.self,
      Accuracy.__call__ y t s = Accuracy.__call__ y t s') /\
  (forall s : TopKMisclassification.self,
      TopKMisclassification.__call__ y t
        (state (TopKMisclassification.__call__ y t s))
      = TopKMisclassification.__call__ y t s).
Proof.
  repeat split.
  - intros s s' E; unfold TopKMisclassification.__call__,
      TopKMisclassification.set_correctProbs, TopKMisclassification.set_topk,
      TopKMisclassification.set_top1, bind, read, write, ret; simpl.
    now rewrite E.
Qed.

Lemma metrics_overwrite_buffers_witness :
  TopKMisclassification.__call__ (H := unit_batch_backend) y_tie t_tie
    {| TopKMisclassification.correctProbs := [[7]];
       TopKMisclassification.top1 := [];
       TopKMisclassification.topk := [[1; 2]];
       TopKMisclassification.k := 2 |}
  = TopKMisclassification.__call__ (H := unit_batch_backend) y_tie t_tie
      (TopKMisclassification.__init__ (H := unit_batch_backend) 2).
Proof.
  apply (proj1 (@metrics_overwrite_buffers unit_batch_backend y_tie t_tie)).
  reflexivity.
Defined.

(** ** TopKMisclassification: the log loss *)

(** X18.  On a non-empty batch of one-hot targets, with predictions that
    are at most 1 and a safe logarithm that clamps at a floor of at most 1,
    the log loss TopKMisclassification returns first is at least 0. *)
Theorem TopK_logloss_nonneg `{Backend} (m n : nat) (y t : Tensor)
    (s : TopKMisclassification.self) :
  safelog_floor <= 1 ->
  has_shape m n y -> has_shape m n t -> (0 < m)%nat -> (0 < n)%nat ->
  onehot_columns m n t -> entries (fun x => x <= 1) y ->
  exists logloss top1_mean topk_mean : R,
    result (TopKMisclassification.__call__ y t s)
    = Return [logloss; top1_mean; topk_mean] /\
    0 <= logloss.
Proof.
  intros Hf Hy Ht Hm Hn Hoh Ey.
  destruct (TopK_buffers_shape m n y t s Hy Ht Hm) as (S0 & S1 & SK).
  destruct (one_row n _ S0) as (r0 & E0 & L0).
  destruct (one_row n _ S1) as (r1 & E1 & L1).
  destruct (one_row n _ SK) as (rk & EK & LK).
  exists (col_mean r0), (col_mean r1), (col_mean rk); split.
  - change (result (TopKMisclassification.__call__ y t s))
      with (Return (mean_axis1 (TopKMisclassification.outputs
                      (state (TopKMisclassification.__call__ y t s))))).
    unfold TopKMisclassification.outputs; rewrite E0, E1, EK; reflexivity.
  - assert (N : 0 <= Rsum r0).
    { apply Rsum_nonneg, Forall_nth_R; intros j Hj; rewrite L0 in Hj.
      change (nth j r0 0) with (get [r0] 0 j); rewrite <- E0.
      destruct (Hoh j Hj) as (c & Hc & Et).
      rewrite TopK_state; cbn [TopKMisclassification.correctProbs].
      assert (SC : has_shape 1 n (be.sum (t_mul y t))) by shape.
      unfold t_neg, be.safelog; rewrite !(get_ew1 _ 1 n); auto with shape.
      rewrite (correctProbs_get m n y t j Hy Ht Hm Hj).
      rewrite (correctProbs_onehot m y t j c) by (destruct Hy; auto).
      pose proof safelog_floor_pos as Pf.
      pose proof (proj1 (entries_iff_get _ m n y Hy) Ey c j Hc Hj) as Le.
      pose proof (Rmax_r (get y c j) safelog_floor) as Mr.
      assert (ln (Rmax (get y c j) safelog_floor) <= 0);
        [apply ln_nonpos; [lra | now apply Rmax_lub] | lra]. }
    assert (P : 0 < / INR (length r0))
      by (apply Rinv_0_lt_compat, lt_0_INR; lia).
    unfold col_mean, Rdiv; apply Rmult_le_pos; lra.
Qed.

(** ** The further properties at concrete inputs *)

Lemma example_has_shape :
  has_shape 2 1 y_example /\ has_shape 2 1 t_example.
Proof. split; (split; [reflexivity | repeat constructor]). Defined.

Lemma example_onehot : onehot_columns 2 1 t_example.
Proof.
  intros j Hj; assert (j = 0%nat) as -> by lia.
  exists 0%nat; split; [lia | reflexivity].
Defined.


Lemma accuracy_is_hit_rate_witness :
  result (Accuracy.__call__ y_example t_example
            (Accuracy.__init__ (H := unit_batch_backend)))
  = Return (INR (hits y_example t_example) / INR 1).
Proof.
  exact (proj1 (proj2
    (accuracy_is_hit_rate 2 1 y_example t_example
       (Accuracy.__init__ (H := unit_batch_backend))
       (Misclassification.__init__ (H := unit_batch_backend))
       (proj1 example_has_shape) (proj2 example_has_shape)
       ltac:(lia) ltac:(lia)))).
Defined.

Lemma accuracy_one_iff_all_hit_witness :
  result (Accuracy.__call__ y_example y_example
            (Accuracy.__init__ (H := unit_batch_backend))) = Return 1 /\
  result (Misclassification.__call__ y_example y_example
            (Misclassification.__init__ (H := unit_batch_backend)))
  = Return 0.
Proof.
  exact (proj2 (proj2
    (accuracy_one_iff_all_hit 2 1 y_example t_example
       (Accuracy.__init__ (H := unit_batch_backend))
       (Misclassification.__init__ (H := unit_batch_backend))
       (proj1 example_has_shape) (proj2 example_has_shape)
       ltac:(lia) ltac:(lia)))).
Defined.

Lemma unit_batch_floor : @safelog_floor unit_batch_backend <= 1.
Proof. simpl; pose proof exp_m50_small; lra. Defined.

Lemma CrossEntropyBinary_exact_prediction_witness :
  exists loss,
    result (CrossEntropyBinary.__call__ (H := unit_batch_backend)
              t_example t_example (CrossEntropyBinary.__init__ 1))
    = Return loss /\
    has_shape 1 1 loss /\
    entries (fun x => x = 0) loss.
Proof.
  apply (@CrossEntropyBinary_exact_prediction unit_batch_backend 2 1).
  - exact unit_batch_floor.
  - exact (proj2 example_has_shape).
  - lia.
  - unfold t_example.
    constructor; [constructor; [right; reflexivity | constructor]|].
    constructor; [constructor; [left; reflexivity | constructor]|].
    constructor.
Defined.

Lemma CrossEntropyBinary_complement_witness :
  result (CrossEntropyBinary.__call__ (H := unit_batch_backend)
            (s_sub 1 y_example) (s_sub 1 t_example)
            (CrossEntropyBinary.__init__ 1))
  = result (CrossEntropyBinary.__call__ (H := unit_batch_backend)
              y_example t_example (CrossEntropyBinary.__init__ 1)).
Proof.
  exact (@CrossEntropyBinary_complement unit_batch_backend 2 1
           y_example t_example (CrossEntropyBinary.__init__ 1)
           (proj1 example_has_shape) (proj2 example_has_shape) ltac:(lia)).
Defined.

Lemma CrossEntropyMulti_onehot_witness :
  exists loss,
    result (CrossEntropyMulti.__call__ (H := unit_batch_backend)
              y_example t_example (CrossEntropyMulti.__init__ 1 true))
    = Return loss /\
    get loss 0 0
    = - CrossEntropyMulti.logscale (CrossEntropyMulti.__init__ 1 true)
      * ln (Rmax (get y_example 0 0) (@safelog_floor unit_batch_backend)) /\
    (@safelog_floor unit_batch_backend <= get y_example 0 0 ->
     get loss 0 0
     = - CrossEntropyMulti.logscale (CrossEntropyMulti.__init__ 1 true)
       * ln (get y_example 0 0)).
Proof.
  exact (@CrossEntropyMulti_onehot unit_batch_backend 2 1
           y_example t_example 0 0 (CrossEntropyMulti.__init__ 1 true)
           (proj1 example_has_shape) (proj2 example_has_shape)
           ltac:(lia) ltac:(lia) eq_refl).
Defined.

Lemma TopK_logloss_is_CrossEntropyMulti_witness :
  result (CrossEntropyMulti.__call__ (H := unit_batch_backend)
            y_example t_example (CrossEntropyMulti.__init__ 1 false))
  = Return (TopKMisclassification.correctProbs
              (state (TopKMisclassification.__call__
                        (H := unit_batch_backend) y_example t_example
                        (TopKMisclassification.__init__
                           (H := unit_batch_backend) 1)))).
Proof.
  exact (@TopK_logloss_is_CrossEntropyMulti unit_batch_backend 2 1
           y_example t_example
           (TopKMisclassification.__init__ (H := unit_batch_backend) 1) 1
           (proj1 example_has_shape) (proj2 example_has_shape)
           ltac:(lia) example_onehot).
Defined.

Lemma CrossEntropyMulti_bits_witness :
  result (CrossEntropyMulti.bprop y_example t_example
            (CrossEntropyMulti.__init__ 1 true))
  = result (CrossEntropyMulti.bprop y_example t_example
              (CrossEntropyMulti.__init__ 1 false)).
Proof.
  exact (proj2 (@CrossEntropyMulti_bits unit_batch_backend 2 1
                  y_example t_example 1
                  (proj1 example_has_shape) (proj2 example_has_shape)
                  ltac:(lia))).
Defined.


Lemma MeanSquared_gradient_witness :
  get (Cost.funcgrad MeanSquared.__init__ y_example t_example) 0 0
  = (get y_example 0 0 - get t_example 0 0) / INR 2.
Proof.
  exact (proj1 (MeanSquared_gradient 2 1 y_example t_example 0 0
                  (proj1 example_has_shape) (proj2 example_has_shape)
                  ltac:(lia) ltac:(lia))).
Defined.


Lemma TopK_logloss_nonneg_witness :
  exists logloss top1_mean topk_mean : R,
    result (TopKMisclassification.__call__ (H := unit_batch_backend)
              y_example t_example
              (TopKMisclassification.__init__ (H := unit_batch_backend) 1))
    = Return [logloss; top1_mean; topk_mean] /\
    0 <= logloss.
Proof.
  apply (@TopK_logloss_nonneg unit_batch_backend 2 1).
  - exact unit_batch_floor.
  - exact (proj1 example_has_shape).
  - exact (proj2 example_has_shape).
  - lia.
  - lia.
  - exact example_onehot.
  - unfold y_example; repeat constructor; lra.
Defined.
